(** * create-structs: structures for a potential-energy-surface scan

    A shallow embedding of [create-structs.py].  The script reads a surface
    model from an XYZ file, shifts it so that the mean of the z coordinates
    is the origin, and writes one XYZ file per probe height.

    The embedding follows the script line by line:
    - text handling ([str.strip], [str.split], [int], [float], [str.format])
      is modelled on ASCII strings;
    - the arithmetic of the script is written once, over an interface
      [Number], and instantiated twice: with IEEE binary64 (the numbers the
      script computes with) and with exact rationals (the numbers its
      documentation speaks about);
    - exceptions are values of an error monad, the file system and the
      standard output are threaded explicitly through [main]. *)

From Stdlib Require Import ZArith QArith Qround Qabs Lia Lqa Ascii String List.
From Stdlib Require Import DecimalString DecimalPos DecimalZ.
From Stdlib Require Import PrimFloat SpecFloat FloatOps.
From stdpp Require Import base option list strings gmap.

Set Default Proof Using "Type".
Local Open Scope string_scope.
Local Open Scope list_scope.

(** ** Exceptions and the error monad *)

Inductive exn : Type :=
| IndexError
| ValueError
| ZeroDivisionError
| OverflowError
| FileNotFoundError
| IsADirectoryError
| NotADirectoryError
| OSError (errno : string).

Inductive result (A : Type) : Type :=
| Ok (a : A)
| Raise (e : exn).
Arguments Ok {A} a.
Arguments Raise {A} e.

Definition bind {A B} (m : result A) (k : A -> result B) : result B :=
  match m with
  | Ok a => k a
  | Raise e => Raise e
  end.

Declare Scope result_scope.
Delimit Scope result_scope with result.
Notation "'let*' x ':=' m 'in' k" := (bind m (fun x => k))
  (at level 10, x pattern, m at level 100, k at level 200) : result_scope.
Local Open Scope result_scope.

Fixpoint mapM {A B} (f : A -> result B) (l : list A) : result (list B) :=
  match l with
  | [] => Ok []
  | a :: l' => let* b := f a in let* bs := mapM f l' in Ok (b :: bs)
  end.

(** ** Text *)

Module Text.

(** [str.isspace] on the ASCII range: TAB, LF, VT, FF, CR, the four
    separators FS, GS, RS, US, and the space. *)
Definition is_space (c : ascii) : bool :=
  let n := nat_of_ascii c in
  (((9 <=? n) && (n <=? 13)) || ((28 <=? n) && (n <=? 32)))%nat.

Fixpoint lstrip (s : string) : string :=
  match s with
  | String c s' => if is_space c then lstrip s' else s
  | EmptyString => EmptyString
  end.

Fixpoint rstrip (s : string) : string :=
  match s with
  | String c s' =>
      match rstrip s' with
      | EmptyString => if is_space c then EmptyString else String c EmptyString
      | t => String c t
      end
  | EmptyString => EmptyString
  end.

(** [s.strip()] *)
Definition strip (s : string) : string := rstrip (lstrip s).

(** [s.split()]: maximal runs of non-space characters. *)
Fixpoint split_acc (cur : string) (s : string) : list string :=
  match s with
  | EmptyString => match cur with EmptyString => [] | _ => [cur] end
  | String c s' =>
      if is_space c
      then match cur with
           | EmptyString => split_acc EmptyString s'
           | _ => cur :: split_acc EmptyString s'
           end
      else split_acc (cur ++ String c EmptyString) s'
  end.
Definition split (s : string) : list string := split_acc EmptyString s.

(** [s.split(sep)[0]]: the text before the first [sep]. *)
Fixpoint before (sep : ascii) (s : string) : string :=
  match s with
  | EmptyString => EmptyString
  | String c s' => if Ascii.eqb c sep then EmptyString else String c (before sep s')
  end.

(** [fp.readlines()] in text mode: the newline translation of the text
    layer turns CR and CR LF into LF, and lines end at LF.  The line
    terminator is left out, every caller strips the line. *)
Fixpoint readlines_acc (cur : string) (s : string) : list string :=
  match s with
  | EmptyString => match cur with EmptyString => [] | _ => [cur] end
  | String c s' =>
      if Ascii.eqb c "010" then cur :: readlines_acc EmptyString s'
      else if Ascii.eqb c "013" then
        match s' with
        | String c' s'' =>
            if Ascii.eqb c' "010" then cur :: readlines_acc EmptyString s''
            else cur :: readlines_acc EmptyString s'
        | EmptyString => [cur]
        end
      else readlines_acc (cur ++ String c EmptyString) s'
  end.
Definition readlines (s : string) : list string := readlines_acc EmptyString s.

Fixpoint repeat_char (c : ascii) (n : nat) : string :=
  match n with
  | O => EmptyString
  | S n' => String c (repeat_char c n')
  end.

(** [{:>w}]: pad with [c] on the left up to width [w]. *)
Definition rjust (c : ascii) (w : nat) (s : string) : string :=
  repeat_char c (w - String.length s)%nat ++ s.

(** [{:<w}]: pad with spaces on the right up to width [w]. *)
Definition ljust (w : nat) (s : string) : string :=
  s ++ repeat_char " " (w - String.length s)%nat.

End Text.

(** ** Numeric literals and number formatting *)

Module Literal.

Definition digit_of (c : ascii) : option Z :=
  let n := nat_of_ascii c in
  if ((48 <=? n) && (n <=? 57))%nat then Some (Z.of_nat (n - 48)) else None.

(** The rest of a [digitpart] after a digit has been read: digits, each
    optionally preceded by one underscore.  Returns the value, the number
    of digits and the unread text. *)
Fixpoint digits_from (acc : Z) (n : nat) (s : string) : Z * nat * string :=
  match s with
  | String c s' =>
      match digit_of c with
      | Some d => digits_from (10 * acc + d)%Z (S n) s'
      | None =>
          if Ascii.eqb c "_" then
            match s' with
            | String c' s'' =>
                match digit_of c' with
                | Some d => digits_from (10 * acc + d)%Z (S n) s''
                | None => (acc, n, s)
                end
            | EmptyString => (acc, n, s)
            end
          else (acc, n, s)
      end
  | EmptyString => (acc, n, s)
  end.

(** [digitpart ::= digit (["_"] digit)*], continuing the number [acc]
    that already has [n] digits. *)
Definition digitpart (acc : Z) (n : nat) (s : string) : option (Z * nat * string) :=
  match s with
  | String c s' =>
      match digit_of c with
      | Some d => Some (digits_from (10 * acc + d)%Z (S n) s')
      | None => None
      end
  | EmptyString => None
  end.

(** [[sign]]: whether the sign is "-", and the unread text. *)
Definition sign (s : string) : bool * string :=
  match s with
  | String "-" s' => (true, s')
  | String "+" s' => (false, s')
  | _ => (false, s)
  end.

(** [int(s)] in base 10. *)
Definition int (s : string) : result Z :=
  let '(neg, s1) := sign (Text.strip s) in
  match digitpart 0 0 s1 with
  | Some (v, _, EmptyString) => Ok (if neg then (- v)%Z else v)
  | _ => Raise ValueError
  end.

(** What a floating-point literal denotes, before it is rounded to the
    number format: [(-1)^neg * m * 10^e10], an infinity, or not-a-number. *)
Inductive float_literal : Type :=
| LitFinite (neg : bool) (m : Z) (e10 : Z)
| LitInf (neg : bool)
| LitNan.

Definition lower_char (c : ascii) : ascii :=
  let n := nat_of_ascii c in
  if ((65 <=? n) && (n <=? 90))%nat then ascii_of_nat (n + 32) else c.

Fixpoint lower (s : string) : string :=
  match s with
  | String c s' => String (lower_char c) (lower s')
  | EmptyString => EmptyString
  end.

(** [exponent ::= ("e" | "E") [sign] digitpart], or nothing. *)
Definition exponent (s : string) : option (Z * string) :=
  match s with
  | String c s' =>
      if Ascii.eqb (lower_char c) "e" then
        let '(neg, s1) := sign s' in
        match digitpart 0 0 s1 with
        | Some (v, _, rest) => Some (if neg then (- v)%Z else v, rest)
        | None => None
        end
      else Some (0%Z, s)
  | EmptyString => Some (0%Z, s)
  end.

(** [number ::= [digitpart] "." digitpart | digitpart ["."]]: the digits
    read as one integer, the number of digits after the point, and the
    unread text. *)
Definition number (s : string) : option (Z * nat * string) :=
  match s with
  | String "." s' => digitpart 0 0 s'
  | _ =>
      match digitpart 0 0 s with
      | Some (v, _, String "." s') =>
          match digitpart v 0 s' with
          | Some r => Some r
          | None => Some (v, O, s')
          end
      | Some (v, _, rest) => Some (v, O, rest)
      | None => None
      end
  end.

(** The grammar of [float(s)]. *)
Definition float_literal_of (s : string) : result float_literal :=
  let '(neg, s1) := sign (Text.strip s) in
  let l := lower s1 in
  if String.eqb l "inf" || String.eqb l "infinity" then Ok (LitInf neg)
  else if String.eqb l "nan" then Ok LitNan
  else
    match number s1 with
    | Some (m, nfrac, rest) =>
        match exponent rest with
        | Some (e, EmptyString) => Ok (LitFinite neg m (e - Z.of_nat nfrac))
        | _ => Raise ValueError
        end
    | None => Raise ValueError
    end.

End Literal.

Module Format.

(** [{:d}] *)
Definition decimal (z : Z) : string := NilZero.string_of_int (Z.to_int z).

(** [{:>4d}] *)
Definition int_right4 (z : Z) : string := Text.rjust " " 4 (decimal z).

(** [{:04d}] of an index, which is never negative. *)
Definition index4 (i : nat) : string := Text.rjust "0" 4 (decimal (Z.of_nat i)).

(** [{:3s}] *)
Definition str3 (s : string) : string := Text.ljust 3 s.

(** The integer nearest to [q], ties to the even one. *)
Definition round_half_even (q : Q) : Z :=
  let '(k, r) := Z.div_eucl (Qnum q) (Zpos (Qden q)) in
  match (2 * r ?= Zpos (Qden q))%Z with
  | Lt => k
  | Gt => (k + 1)%Z
  | Eq => if Z.even k then k else (k + 1)%Z
  end.

(** The digits of [{:.8f}] for a magnitude [q >= 0]: the value is rounded
    to a multiple of 10^-8, ties to even. *)
Definition fixed8_abs (q : Q) : string :=
  let n := round_half_even (q * (100000000 # 1)) in
  decimal (n / 100000000) ++ "." ++ Text.rjust "0" 8 (decimal (n mod 100000000)).

(** [{:.8f}] of a finite value whose sign bit is [neg]. *)
Definition fixed8 (neg : bool) (q : Q) : string :=
  (if neg then "-" else EmptyString) ++ fixed8_abs (Qabs q).

End Format.

(** ** The numbers of the script *)

(** The operations the script performs on floating-point values.  [ceil]
    is the length computation of [numpy.arange], which raises on a value
    that is not finite; [of_literal] is the rounding step of [float(s)];
    [fmt8] is [{:.8f}]. *)
Class Number (R : Type) : Type := {
  add : R -> R -> R;
  sub : R -> R -> R;
  mul : R -> R -> R;
  div : R -> R -> R;
  is_zero : R -> bool;
  of_nat : nat -> R;
  ceil : R -> result Z;
  of_literal : Literal.float_literal -> result R;
  fmt8 : R -> string;
}.

(** [float(s)] *)
Definition float `{Number R} (s : string) : result R :=
  let* l := Literal.float_literal_of s in of_literal l.

(** [{:13.8f}] *)
Definition fmt13_8 `{Number R} (x : R) : string := Text.rjust " " 13 (fmt8 x).

(** *** Exact rational arithmetic

    The idealised numbers: no rounding, no infinities.  The literals [inf]
    and [nan] have no value here. *)
Module Exact.

Definition literal_value (l : Literal.float_literal) : result Q :=
  match l with
  | Literal.LitFinite neg m e10 =>
      let v := (inject_Z m * Qpower (10 # 1) e10)%Q in
      Ok (if neg then Qopp v else v)
  | _ => Raise ValueError
  end.

#[global] Instance number : Number Q := {|
  add := Qplus;
  sub := Qminus;
  mul := Qmult;
  div := Qdiv;
  is_zero q := Qeq_bool q 0;
  of_nat n := inject_Z (Z.of_nat n);
  ceil q := Ok (Qceiling q);
  of_literal := literal_value;
  fmt8 q := Format.fixed8 (Qnum q <? 0)%Z q;
|}.

End Exact.

(** *** IEEE binary64

    The numbers of the interpreter.  Arithmetic is the primitive binary64
    arithmetic (round to nearest, ties to even); conversions from and to
    text go through the exact value of a float. *)
Module Binary64.

(** The exact value [m * 2^e] of a finite float. *)
Definition value (m : positive) (e : Z) : Q := inject_Z (Zpos m) * Qpower (2 # 1) e.

(** The exact value of a float, when it is finite. *)
Definition exact (x : PrimFloat.float) : option Q :=
  match Prim2SF x with
  | S754_zero _ => Some 0%Q
  | S754_finite s m e => Some (if s then Qopp (value m e) else value m e)
  | _ => None
  end.

Definition ceiling (x : PrimFloat.float) : result Z :=
  match Prim2SF x with
  | S754_zero _ => Ok 0%Z
  | S754_finite s m e => Ok (Qceiling (if s then Qopp (value m e) else value m e))
  | S754_infinity _ => Raise OverflowError
  | S754_nan => Raise ValueError
  end.

(** The float nearest to [n / d]. *)
Definition nearest_ratio (neg : bool) (n d : positive) : PrimFloat.float :=
  SF2Prim (SFdiv prec emax (S754_finite neg n 0) (S754_finite false d 0)).

(** The float nearest to the integer [n]. *)
Definition nearest_int (neg : bool) (n : positive) : PrimFloat.float :=
  SF2Prim (binary_round prec emax neg n 0).

Definition nearest (neg : bool) (m : positive) (e10 : Z) : PrimFloat.float :=
  match e10 with
  | Zneg k => nearest_ratio neg m (10 ^ k)
  | _ => nearest_int neg (m * Z.to_pos (10 ^ e10))
  end.

Definition literal_value (l : Literal.float_literal) : result PrimFloat.float :=
  match l with
  | Literal.LitFinite neg m e10 =>
      match m with
      | Z0 => Ok (if neg then neg_zero else zero)
      | Zpos p => Ok (nearest neg p e10)
      | Zneg p => Ok (nearest (negb neg) p e10)
      end
  | Literal.LitInf neg => Ok (if neg then neg_infinity else infinity)
  | Literal.LitNan => Ok nan
  end.

Definition nat_value (n : nat) : PrimFloat.float :=
  match Z.of_nat n with
  | Zpos p => nearest_int false p
  | _ => zero
  end.

Definition format8 (x : PrimFloat.float) : string :=
  match Prim2SF x with
  | S754_zero s => Format.fixed8 s 0
  | S754_finite s m e => Format.fixed8 s (value m e)
  | S754_infinity s => if s then "-inf" else "inf"
  | S754_nan => "nan"
  end.

#[global] Instance number : Number PrimFloat.float := {|
  add := PrimFloat.add;
  sub := PrimFloat.sub;
  mul := PrimFloat.mul;
  div := PrimFloat.div;
  is_zero x := PrimFloat.eqb x zero;
  of_nat := nat_value;
  ceil := ceiling;
  of_literal := literal_value;
  fmt8 := format8;
|}.

End Binary64.

(** ** The file system and the standard output *)

Module OS.

(** One directory of named entries.  A path is the name of an entry; the
    directories the script is pointed at are not entered. *)
Inductive node : Type :=
| File (content : string)
| Dir (empty : bool).

(** [free] is the room left on the device, in characters. *)
Record world : Type := World {
  files : gmap string node;
  free : N;
  stdout : list string;
}.

Definition io (A : Type) : Type := world -> world * result A.

Definition ret {A} (a : A) : io A := fun w => (w, Ok a).

Definition lift {A} (r : result A) : io A := fun w => (w, r).

Definition bind {A B} (m : io A) (k : A -> io B) : io B :=
  fun w =>
    match m w with
    | (w', Ok a) => k a w'
    | (w', Raise e) => (w', Raise e)
    end.

(** [try: m  except FileNotFoundError: handler  else: otherwise] *)
Definition try_except_FileNotFoundError {A B}
    (m : io A) (handler : io B) (otherwise : A -> io B) : io B :=
  fun w =>
    match m w with
    | (w', Ok a) => otherwise a w'
    | (w', Raise FileNotFoundError) => handler w'
    | (w', Raise e) => (w', Raise e)
    end.

(** [print(s, end='')] *)
Definition print (s : string) : io unit :=
  fun w => (World (files w) (free w) (stdout w ++ [s]), Ok tt).

(** [open(path, 'r').read()] *)
Definition read_text (path : string) : io string :=
  fun w =>
    match files w !! path with
    | Some (File c) => (w, Ok c)
    | Some (Dir _) => (w, Raise IsADirectoryError)
    | None => (w, Raise FileNotFoundError)
    end.

Definition size_of (o : option node) : N :=
  match o with
  | Some (File c) => N.of_nat (String.length c)
  | _ => 0%N
  end.

(** [os.rename(src, dst)] with the POSIX rules: an existing file at [dst]
    is replaced without notice, a directory is not. *)
Definition rename (src dst : string) : io unit :=
  fun w =>
    let moved n :=
      World (<[dst := n]> (delete src (files w)))
            (free w + size_of (files w !! dst))%N (stdout w) in
    match files w !! src with
    | None => (w, Raise FileNotFoundError)
    | Some (File c) =>
        match files w !! dst with
        | Some (Dir _) => (w, Raise IsADirectoryError)
        | _ => (moved (File c), Ok tt)
        end
    | Some (Dir e) =>
        match files w !! dst with
        | Some (File _) => (w, Raise NotADirectoryError)
        | Some (Dir false) => (w, Raise (OSError "ENOTEMPTY"))
        | _ => (moved (Dir e), Ok tt)
        end
    end.

(** [with open(path, 'w') as fp: fp.write(...)], the text being what the
    writes add up to.  The file is truncated on opening; when the device
    is full the part that fits stays on it. *)
Definition write_text (path : string) (text : string) : io unit :=
  fun w =>
    match files w !! path with
    | Some (Dir _) => (w, Raise IsADirectoryError)
    | o =>
        let room := (free w + size_of o)%N in
        if (N.of_nat (String.length text) <=? room)%N
        then (World (<[path := File text]> (files w))
                    (room - N.of_nat (String.length text))%N (stdout w), Ok tt)
        else (World (<[path := File (String.substring 0 (N.to_nat room) text)]>
                       (files w))
                    0%N (stdout w), Raise (OSError "ENOSPC"))
    end.

End OS.

Declare Scope io_scope.
Delimit Scope io_scope with io.
Notation "'do*' x ':=' m 'in' k" := (OS.bind m (fun x => k))
  (at level 10, x pattern, m at level 100, k at level 200) : io_scope.
Notation "m ';;' k" := (OS.bind m (fun _ => k))
  (at level 100, right associativity) : io_scope.

(** ** The script *)

(** [ArgumentParser.convert_arg_line_to_args]: what one line of an argument
    file contributes to the argument list. *)
Definition convert_arg_line_to_args (line : string) : list string :=
  if (String.length (Text.strip line) =? 0)%nat
     || match Text.strip line with
        | String c _ => Ascii.eqb c "#"
        | EmptyString => false
        end
  then []
  else [line].

(** The arguments read from a file named by an [@file] token: argparse
    calls [convert_arg_line_to_args] on each line and chains the results. *)
Definition args_of_lines (lines : list string) : list string :=
  flat_map convert_arg_line_to_args lines.

(** The namespace returned by [get_cmdline_args]. *)
Record cmd_line_args (R : Type) : Type := Args {
  inpxyz : string;
  outname : string;
  d_min : R;
  d_max : R;
  d_step : R;
  atom_symb : string;
  xcoord : R;
  ycoord : R;
}.
Arguments Args {R}.
Arguments inpxyz {R}.
Arguments outname {R}.
Arguments d_min {R}.
Arguments d_max {R}.
Arguments d_step {R}.
Arguments atom_symb {R}.
Arguments xcoord {R}.
Arguments ycoord {R}.

Definition nl : string := String (ascii_of_nat 10) EmptyString.
Definition dquote : string := String (ascii_of_nat 34) EmptyString.

Section Script.

Context {R : Type} `{Number R}.

(** The namespace that [parse_args] builds from the values given to the
    options: the values of [-dmin], [-dmax], [-dstep], [-x] and [-y] go
    through [type=float]. *)
Definition namespace (inpxyz outname dmin dmax dstep atom x y : string)
    : result (cmd_line_args R) :=
  let* d_min := float dmin in
  let* d_max := float dmax in
  let* d_step := float dstep in
  let* xcoord := float x in
  let* ycoord := float y in
  Ok (Args inpxyz outname d_min d_max d_step atom xcoord ycoord).

(** [numpy.arange(start, stop, step)] on floats: the length is
    [ceil((stop - start) / step)], the first two elements are [start] and
    [start + step], and element [i] is [start + i * delta] where [delta]
    is the difference of the first two. *)
Definition arange_item (start step : R) (i : nat) : R :=
  match i with
  | 0%nat => start
  | 1%nat => add start step
  | _ => add start (mul (of_nat i) (sub (add start step) start))
  end.

Definition arange (start stop step : R) : result (list R) :=
  if is_zero step then Raise ZeroDivisionError
  else
    let* len := ceil (div (sub stop start) step) in
    Ok (map (arange_item start step) (seq 0 (Z.to_nat len))).

(** Lines 117-122: the loop over the coordinate lines; [i] is the index
    that [enumerate] gives to the first of [lines]. *)
Fixpoint read_coords (natoms : Z) (i : nat) (lines : list string)
    : result (list string * list (list R)) :=
  match lines with
  | [] => Ok ([], [])
  | line :: rest =>
      if (Z.of_nat i + 1 >? natoms)%Z then Ok ([], [])
      else
        match Text.split line with
        | [] => Raise IndexError
        | atom :: tokens =>
            let* coords := mapM float (take 3 tokens) in
            let* (atoms, atomcoords) := read_coords natoms (S i) rest in
            Ok (atom :: atoms, coords :: atomcoords)
        end
  end.

(** Lines 113-122. *)
Definition read_atoms (inpxyz_lines : list string)
    : result (Z * list string * list (list R)) :=
  match inpxyz_lines with
  | [] => Raise IndexError
  | first :: lines1 =>
      let* natoms := Literal.int (Text.strip (Text.before "#" first)) in
      match lines1 with
      | [] => Raise IndexError
      | _ :: lines2 =>
          let* (atoms, atomcoords) := read_coords natoms 0 lines2 in
          Ok (natoms, atoms, atomcoords)
      end
  end.

(** [numpy.array(rows)[:, -1]]: the rows must form a matrix with at least
    one row and one column. *)
Definition last_column (rows : list (list R)) : result (list R) :=
  match rows with
  | [] => Raise IndexError
  | r :: _ =>
      if forallb (fun r' => (length r' =? length r)%nat) rows
      then mapM (fun r' => match last r' with
                           | Some z => Ok z
                           | None => Raise IndexError
                           end) rows
      else Raise ValueError
  end.

(** [a.mean()]: the sum, taken from left to right, over the count. *)
Definition mean (zs : list R) : R :=
  div (fold_left add zs (of_nat 0)) (of_nat (length zs)).

(** Line 126; a row that is not a triple cannot be unpacked. *)
Definition shift_coords (shift : R) (atomcoords : list (list R))
    : result (list (R * R * R)) :=
  mapM (fun row => match row with
                   | [x; y; z] => Ok (x, y, sub z shift)
                   | _ => Raise ValueError
                   end) atomcoords.

(** Line 137: ['{:}_{:04d}.xyz'.format(outname, i)] *)
Definition newfile_name (outname : string) (i : nat) : string :=
  outname ++ "_" ++ Format.index4 i ++ ".xyz".

(** ['{:3s} {:13.8f} {:13.8f} {:13.8f}\n'.format(atom, x, y, z)] *)
Definition atom_line (atom : string) (x y z : R) : string :=
  Format.str3 atom ++ " " ++ fmt13_8 x ++ " " ++ fmt13_8 y ++ " " ++ fmt13_8 z ++ nl.

(** Lines 148-153: the strings passed to [fp.write], in order. *)
Definition xyz_records (args : cmd_line_args R) (natoms : Z)
    (atoms : list string) (shftcoords : list (R * R * R)) (znew : R) : list string :=
  [ (Format.int_right4 (natoms + 1) ++ nl)%string;
    ("Atom-surface distance: " ++ fmt8 znew ++ nl)%string;
    atom_line (atom_symb args) (xcoord args) (ycoord args) znew ]
  ++ map (fun '(atom, (x, y, z)) => atom_line atom x y z) (combine atoms shftcoords).

Definition xyz_text (args : cmd_line_args R) (natoms : Z)
    (atoms : list string) (shftcoords : list (R * R * R)) (znew : R) : string :=
  String.concat EmptyString (xyz_records args natoms atoms shftcoords znew).

Local Open Scope io_scope.

(** Line 144: ['WARNING: File "{f:}" moved to "{f:}.BAK"'.format(f=newfile)],
    printed with a newline. *)
Definition warning_message (newfile : string) : string :=
  "WARNING: File " ++ dquote ++ newfile ++ dquote
  ++ " moved to " ++ dquote ++ newfile ++ ".BAK" ++ dquote ++ nl.

(** Line 146, printed with [end=' ... ']. *)
Definition writing_message (znew : R) : string :=
  "Writing new file for d=" ++ fmt8 znew ++ " ... ".

(** Line 155, printed with a newline. *)
Definition done_message (newfile : string) : string :=
  "done! (New file: " ++ newfile ++ ")" ++ nl.

(** Lines 139-144: [try: os.rename(newfile, newfile+'.BAK')], with
    [except FileNotFoundError: pass] and the warning in the [else]. *)
Definition backup_existing (newfile : string) : OS.io unit :=
  OS.try_except_FileNotFoundError
    (OS.rename newfile (newfile ++ ".BAK"))
    (OS.ret tt)
    (fun _ => OS.print (warning_message newfile)).

(** Lines 137-155: the body of the loop over the heights. *)
Definition write_structure (args : cmd_line_args R) (natoms : Z)
    (atoms : list string) (shftcoords : list (R * R * R))
    (i : nat) (znew : R) : OS.io unit :=
  let newfile := newfile_name (outname args) i in
  backup_existing newfile ;;
  OS.print (writing_message znew) ;;
  OS.write_text newfile (xyz_text args natoms atoms shftcoords znew) ;;
  OS.print (done_message newfile).

(** Line 136: [for i, znew in enumerate(zvalues)], from index [i] on. *)
Fixpoint write_structures (args : cmd_line_args R) (natoms : Z)
    (atoms : list string) (shftcoords : list (R * R * R))
    (i : nat) (zvalues : list R) : OS.io unit :=
  match zvalues with
  | [] => OS.ret tt
  | znew :: rest =>
      write_structure args natoms atoms shftcoords i znew ;;
      write_structures args natoms atoms shftcoords (S i) rest
  end.

(** Lines 98-155. *)
Definition main (args : cmd_line_args R) : OS.io unit :=
  do* zvalues := OS.lift (arange (d_min args) (add (d_max args) (d_step args))
                                 (d_step args)) in
  do* text := OS.read_text (inpxyz args) in
  let inpxyz_lines := map Text.strip (Text.readlines text) in
  do* (natoms, atoms, atomcoords) := OS.lift (read_atoms inpxyz_lines) in
  do* zs := OS.lift (last_column atomcoords) in
  let shift := mean zs in
  do* shftcoords := OS.lift (shift_coords shift atomcoords) in
  write_structures args natoms atoms shftcoords 0 zvalues.

End Script.

(** ** Vocabulary of the statements *)

(** The row that the parser builds for an atom at [(x, y, z)]. *)
Definition row_of {R} (c : R * R * R) : list R :=
  let '(x, y, z) := c in [x; y; z].

Definition z_of {R} (c : R * R * R) : R := snd c.

(** A line that the loop over the coordinate lines accepts: a symbol and
    then tokens of which the first three, or those there are, are numbers. *)
Definition coordinate_line {R} `{Number R} (line : string) : Prop :=
  exists atom tokens (coords : list R),
    Text.split line = atom :: tokens /\ mapM float (take 3 tokens) = Ok coords.

(** The element symbol of a coordinate line. *)
Definition symbol_of (line : string) : option string := head (Text.split line).

(** The atom count that the first line of the input declares. *)
Definition declared_count (lines : list string) : option Z :=
  match lines with
  | first :: _ =>
      match Literal.int (Text.strip (Text.before "#" first)) with
      | Ok n => Some n
      | Raise _ => None
      end
  | [] => None
  end.

(** The sum of a list of rationals. *)
Definition Qsum (l : list Q) : Q := fold_right Qplus 0%Q l.

(** Reading a string of decimal digits back. *)
Definition read_index (s : string) : option Z :=
  option_map Z.of_uint (NilEmpty.uint_of_string s).

(** A string of white space. *)
Definition blank (s : string) : Prop :=
  Forall (fun c => Text.is_space c = true) (list_ascii_of_string s).

(** A line is a comment when it is blank, or when its first character
    that is not white space is [#]. *)
Definition comment (line : string) : Prop :=
  exists ws rest, blank ws /\ (line = ws \/ line = (ws ++ String "#" rest)%string).

(** What a run that ends normally prints from pass [i] on: for each
    height the warning, when [present] holds of the name of its file, the
    announcement and the confirmation. *)
Fixpoint progress {R} `{Number R} (outname : string) (present : string -> bool)
    (i : nat) (zvalues : list R) : list string :=
  match zvalues with
  | [] => []
  | znew :: rest =>
      let newfile := newfile_name outname i in
      (if present newfile then [warning_message newfile] else [])
      ++ writing_message znew :: done_message newfile
      :: progress outname present (S i) rest
  end.

(** Whether a name is taken in a directory. *)
Definition taken (w : OS.world) (path : string) : bool :=
  match OS.files w !! path with
  | Some _ => true
  | None => false
  end.

(** The number that a run of decimal digits at the head of a string
    continues from [acc]. *)
Fixpoint string_value (acc : Z) (s : string) : Z :=
  match s with
  | String c s' =>
      match Literal.digit_of c with
      | Some d => string_value (10 * acc + d) s'
      | None => acc
      end
  | EmptyString => acc
  end.

(** A string of decimal digits. *)
Definition digit_string (s : string) : Prop :=
  Forall (fun c => Literal.digit_of c <> None) (list_ascii_of_string s).

(** A string without white space. *)
Definition solid (s : string) : Prop :=
  Forall (fun c => Text.is_space c = false) (list_ascii_of_string s).

(** What ends a run of digits: the end of the string, or a character that
    is neither a digit nor an underscore. *)
Definition ends_digits (rest : string) : Prop :=
  match rest with
  | EmptyString => True
  | String c _ => Literal.digit_of c = None /\ c <> "_"%char
  end.

(** A token of a line: a string that is not empty and holds no white
    space. *)
Definition token (s : string) : Prop := solid s /\ s <> EmptyString.

(** A string without a line terminator. *)
Definition one_line (s : string) : Prop :=
  Forall (fun c => Ascii.eqb c "010" = false /\ Ascii.eqb c "013" = false)
         (list_ascii_of_string s).

(** ** A scenario

    A surface of three atoms at z = 1.0, 2.0, 3.0, scanned with
    [-dmin 2 -dmax 4 -dstep 1 -atom H -x 0 -y 0]. *)
Module Scenario.

Definition surface : string :=
  "3" ++ nl
  ++ "three atoms" ++ nl
  ++ "C 0.0 0.0 1.0" ++ nl
  ++ "C 1.5 0.0 2.0" ++ nl
  ++ "Si 0.0 1.5 3.0" ++ nl.

(** The same file cut after its first coordinate line. *)
Definition truncated : string :=
  "3" ++ nl
  ++ "three atoms" ++ nl
  ++ "C 0.0 0.0 1.0" ++ nl.

(** A directory that holds the input file and nothing else. *)
Definition world_with (text : string) : OS.world :=
  OS.World {[ "surf.xyz" := OS.File text ]} 1000000 [].

Definition world : OS.world := world_with surface.

Definition options {R} `{Number R} (dmin dmax dstep : string)
    : result (cmd_line_args R) :=
  namespace "surf.xyz" "out" dmin dmax dstep "H" "0" "0".

(** The namespace of [-dmin 2 -dmax 4 -dstep 1] in binary64. *)
Definition arguments : cmd_line_args PrimFloat.float :=
  Args "surf.xyz" "out" 2%float 4%float 1%float "H" 0%float 0%float.

(** The directory after an earlier run: a stale file under the name of
    the second output, and less room. *)
Definition used_world : OS.world :=
  OS.World (<["out_0001.xyz" := OS.File "stale"]> (OS.files world)) 5000 ["$ "].

(** The run of the script with the given heights in the given world. *)
Definition run {R} `{Number R} (dmin dmax dstep : string) (w : OS.world)
    : OS.world * result unit :=
  match options dmin dmax dstep with
  | Ok args => main args w
  | Raise e => (w, Raise e)
  end.

(** What each output file of the scenario is to hold, for the height
    written with eight decimals. *)
Definition expected (height : string) : string :=
  "   4" ++ nl
  ++ "Atom-surface distance: " ++ height ++ nl
  ++ "H      0.00000000    0.00000000    " ++ height ++ nl
  ++ "C      0.00000000    0.00000000   -1.00000000" ++ nl
  ++ "C      1.50000000    0.00000000    0.00000000" ++ nl
  ++ "Si     0.00000000    1.50000000    1.00000000" ++ nl.

End Scenario.

(** * Properties *)

(** ** The grammar of numbers, on examples *)

Example int_examples :
  map Literal.int ["3"; " 12 "; "-4"; "+07"; "1_000"; "1__0"; "3.0"; "_1"; "1_"]
  = [Ok 3%Z; Ok 12%Z; Ok (-4)%Z; Ok 7%Z; Ok 1000%Z; Raise ValueError;
     Raise ValueError; Raise ValueError; Raise ValueError].
Proof. reflexivity. Qed.

Example float_literal_examples :
  map Literal.float_literal_of ["1.0"; "-2.5e3"; ".5"; "5."; "."; "+iNf"; "NaN"; "1_0.2_5E-1_0"; "1._5"]
  = [Ok (Literal.LitFinite false 10 (-1)); Ok (Literal.LitFinite true 25 2);
     Ok (Literal.LitFinite false 5 (-1)); Ok (Literal.LitFinite false 5 0);
     Raise ValueError; Ok (Literal.LitInf false); Ok Literal.LitNan;
     Ok (Literal.LitFinite false 1025 (-12)); Raise ValueError].
Proof. reflexivity. Qed.

(** ** Strings as lists of characters *)

Module StringFacts.

Abbreviation chars := list_ascii_of_string.

Lemma chars_append (s t : string) : chars (s ++ t) = chars s ++ chars t.
Proof. induction s as [|c s IH]; simpl; [reflexivity | now rewrite IH]. Qed.

Lemma chars_inj (s t : string) : chars s = chars t -> s = t.
Proof.
  intros E. rewrite <- (string_of_list_ascii_of_string s),
    <- (string_of_list_ascii_of_string t). now rewrite E.
Qed.

Lemma chars_length (s : string) : length (chars s) = String.length s.
Proof. induction s as [|c s IH]; simpl; [reflexivity | now rewrite IH]. Qed.

Lemma length_append (s t : string) :
  String.length (s ++ t) = (String.length s + String.length t)%nat.
Proof. rewrite <- !chars_length, chars_append. apply length_app. Qed.

Lemma append_cons (c : ascii) (s t : string) :
  (String c s ++ t)%string = String c (s ++ t).
Proof. reflexivity. Qed.

Lemma append_assoc (s t u : string) : ((s ++ t) ++ u = s ++ (t ++ u))%string.
Proof. apply chars_inj. rewrite !chars_append. now rewrite <- app_assoc. Qed.

Lemma append_nil_r (s : string) : (s ++ EmptyString)%string = s.
Proof. apply chars_inj. rewrite chars_append. apply app_nil_r. Qed.

Lemma append_inv_head (s t u : string) : (s ++ t = s ++ u)%string -> t = u.
Proof.
  intros E. apply chars_inj. apply (f_equal chars) in E.
  rewrite !chars_append in E. now apply app_inv_head in E.
Qed.

Lemma append_inv_tail (s t u : string) : (s ++ u = t ++ u)%string -> s = t.
Proof.
  intros E. apply chars_inj. apply (f_equal chars) in E.
  rewrite !chars_append in E. now apply app_inv_tail in E.
Qed.

Lemma last_append_char (s : string) (c : ascii) :
  last (chars (s ++ String c EmptyString)) = Some c.
Proof. rewrite chars_append. simpl. apply last_snoc. Qed.

Lemma repeat_char_length (c : ascii) (n : nat) :
  String.length (Text.repeat_char c n) = n.
Proof. induction n; simpl; congruence. Qed.

Lemma rjust_length (c : ascii) (w : nat) (s : string) :
  String.length (Text.rjust c w s) = Nat.max w (String.length s).
Proof. unfold Text.rjust. rewrite length_append, repeat_char_length. lia. Qed.

End StringFacts.

(** ** Names of the output files *)

Module Names.

Import StringFacts.

Lemma read_index_zeros (n : nat) (s : string) :
  read_index (Text.repeat_char "0" n ++ s) = read_index s.
Proof.
  unfold read_index. induction n as [|n IH]; simpl; [reflexivity|].
  rewrite <- IH. now destruct (NilEmpty.uint_of_string _).
Qed.

Lemma read_index_decimal (z : Z) :
  (0 <= z)%Z -> read_index (Format.decimal z) = Some z.
Proof.
  intros Hz. unfold read_index, Format.decimal.
  destruct z as [|p|p]; [reflexivity | | lia].
  simpl. unfold NilZero.string_of_uint.
  pose proof (Unsigned.to_uint_nonnil p) as Hnil.
  pose proof (DecimalZ.of_to (Zpos p)) as Hof. simpl in Hof.
  destruct (Pos.to_uint p) eqn:E; try congruence;
    rewrite <- E, NilEmpty.usu; simpl; now rewrite E, Hof.
Qed.

(** The index can be read back from the file name: its decimal value is
    the position of the height in the sequence. *)
Lemma read_index_index4 (i : nat) :
  read_index (Format.index4 i) = Some (Z.of_nat i).
Proof.
  unfold Format.index4, Text.rjust.
  rewrite read_index_zeros. apply read_index_decimal. lia.
Qed.

Lemma index4_inj (i j : nat) : Format.index4 i = Format.index4 j -> i = j.
Proof.
  intros E. apply (f_equal read_index) in E.
  rewrite !read_index_index4 in E. injection E. lia.
Qed.

Lemma index4_length (i : nat) : (4 <= String.length (Format.index4 i))%nat.
Proof. unfold Format.index4. rewrite rjust_length. lia. Qed.



Lemma newfile_name_inj (o : string) (i j : nat) :
  newfile_name o i = newfile_name o j -> i = j.
Proof.
  unfold newfile_name. intros E.
  apply append_inv_head in E. apply (append_inv_head "_") in E.
  apply append_inv_tail in E. now apply index4_inj.
Qed.

Lemma newfile_name_last (o : string) (i : nat) :
  last (chars (newfile_name o i)) = Some "z"%char.
Proof.
  unfold newfile_name.
  replace (o ++ "_" ++ Format.index4 i ++ ".xyz")%string
    with ((o ++ "_" ++ Format.index4 i ++ ".xy") ++ "z")%string.
  - apply last_append_char.
  - rewrite !append_assoc. reflexivity.
Qed.

Lemma newfile_name_not_backup (o : string) (i j : nat) :
  newfile_name o i <> (newfile_name o j ++ ".BAK")%string.
Proof.
  intros E. apply (f_equal (fun s => last (chars s))) in E.
  rewrite newfile_name_last in E.
  replace (newfile_name o j ++ ".BAK")%string
    with ((newfile_name o j ++ ".BA") ++ "K")%string in E
    by (rewrite append_assoc; reflexivity).
  rewrite last_append_char in E. discriminate.
Qed.

End Names.

(** ** One pass of the loop, and the loop *)

(** Case analysis on the matches of a goal or hypothesis that compares the
    result of an action. *)
Ltac break_match :=
  match goal with
  | |- context [match ?x with _ => _ end] => destruct x eqn:?
  | H : context [match ?x with _ => _ end] |- _ => destruct x eqn:?
  end.

Section Loop.

Context {R : Type} `{Number R}.
Variable args : cmd_line_args R.
Variable natoms : Z.
Variable atoms : list string.
Variable shftcoords : list (R * R * R).

Local Open Scope io_scope.

Let newfile := newfile_name (outname args).
Let backup (i : nat) : string := (newfile i ++ ".BAK")%string.
Let text := xyz_text args natoms atoms shftcoords.
Let step := write_structure args natoms atoms shftcoords.
Let loop := write_structures args natoms atoms shftcoords.

Lemma newfile_not_backup (i : nat) : newfile i <> backup i.
Proof. apply Names.newfile_name_not_backup. Qed.

(** A pass that ends normally leaves the new file under its name and
    touches nothing but that name and the name of its backup. *)
Lemma write_structure_ok (i : nat) (znew : R) (w w' : OS.world) :
  step i znew w = (w', Ok tt) ->
  OS.files w' !! newfile i = Some (OS.File (text znew))
  /\ (forall p, p <> newfile i -> p <> backup i ->
                OS.files w' !! p = OS.files w !! p).
Proof.
  pose proof (newfile_not_backup i) as Hne.
  unfold step, write_structure, backup_existing, OS.bind,
    OS.try_except_FileNotFoundError, OS.rename, OS.write_text, OS.print, OS.ret.
  fold (newfile i). fold (backup i). fold (text znew).
  intros E.
  repeat (break_match; simpl in *; simplify_eq; simplify_map_eq; try done).
  all: split; [done|]; intros p Hp1 Hp2.
  all: by rewrite ?lookup_insert_ne, ?lookup_delete_ne by done.
Qed.

Lemma write_structures_cons (i : nat) (znew : R) (rest : list R) :
  loop i (znew :: rest) = (step i znew ;; loop (S i) rest).
Proof. reflexivity. Qed.


(** A loop that ends normally has left, for every height, the file of
    that height under the name of its index, and has touched nothing but
    these names and the names of their backups. *)
Lemma write_structures_ok (zvalues : list R) :
  forall (i : nat) (w w' : OS.world),
    loop i zvalues w = (w', Ok tt) ->
    (forall k znew, zvalues !! k = Some znew ->
       OS.files w' !! newfile (i + k) = Some (OS.File (text znew)))
    /\ (forall p,
          (forall k, (k < length zvalues)%nat ->
                     p <> newfile (i + k) /\ p <> backup (i + k)) ->
          OS.files w' !! p = OS.files w !! p).
Proof.
  induction zvalues as [|z zs IH]; intros i w w' E.
  - injection E as <-. split; [intros k znew Hk; discriminate | reflexivity].
  - rewrite write_structures_cons in E. unfold OS.bind in E.
    destruct (step i z w) as [w1 [[]|e]] eqn:E1; [|discriminate].
    apply write_structure_ok in E1 as [Hnew Hframe].
    apply IH in E as [Hfiles Hrest]. split.
    + intros [|k] znew Hk; simpl in Hk.
      * injection Hk as <-. rewrite Nat.add_0_r, Hrest; [exact Hnew|].
        intros k Hlt. split.
        -- intros Eq. apply Names.newfile_name_inj in Eq. lia.
        -- apply Names.newfile_name_not_backup.
      * replace (i + S k)%nat with (S i + k)%nat by lia. now apply Hfiles.
    + intros p Hp. rewrite Hrest.
      * destruct (Hp 0%nat) as [Hp1 Hp2]; [simpl; lia|].
        rewrite Nat.add_0_r in Hp1, Hp2. now apply Hframe.
      * intros k Hlt. replace (S i + k)%nat with (i + S k)%nat by lia.
        apply Hp. simpl. lia.
Qed.

End Loop.

(** ** The run as a whole *)

Section Run.

Context {R : Type} `{Number R}.

(** What a run that ends normally went through: the heights, the text of
    the input file, the atoms read from it, the shifted coordinates, and
    the loop over the heights. *)
Lemma main_ok (args : cmd_line_args R) (w w' : OS.world) :
  main args w = (w', Ok tt) ->
  exists zvalues text natoms atoms atomcoords zs shftcoords,
    arange (d_min args) (add (d_max args) (d_step args)) (d_step args) = Ok zvalues
    /\ OS.files w !! inpxyz args = Some (OS.File text)
    /\ read_atoms (map Text.strip (Text.readlines text)) = Ok (natoms, atoms, atomcoords)
    /\ last_column atomcoords = Ok zs
    /\ shift_coords (mean zs) atomcoords = Ok shftcoords
    /\ write_structures args natoms atoms shftcoords 0 zvalues w = (w', Ok tt).
Proof.
  unfold main, OS.bind, OS.lift, OS.read_text. intros E.
  destruct (arange _ _ _) as [zvalues|] eqn:Ez; [|discriminate].
  destruct (OS.files w !! inpxyz args) as [[text|]|] eqn:Et; try discriminate.
  destruct (read_atoms _) as [[[natoms atoms] atomcoords]|] eqn:Er; [|discriminate].
  destruct (last_column atomcoords) as [zs|] eqn:Ec; [|discriminate].
  destruct (shift_coords _ _) as [shftcoords|] eqn:Es; [|discriminate].
  now exists zvalues, text, natoms, atoms, atomcoords, zs, shftcoords.
Qed.

(** The other way round: the run is determined by these steps. *)
Lemma main_eq (args : cmd_line_args R) (w : OS.world)
    zvalues text natoms atoms atomcoords zs shftcoords :
  arange (d_min args) (add (d_max args) (d_step args)) (d_step args) = Ok zvalues ->
  OS.files w !! inpxyz args = Some (OS.File text) ->
  read_atoms (map Text.strip (Text.readlines text)) = Ok (natoms, atoms, atomcoords) ->
  last_column atomcoords = Ok zs ->
  shift_coords (mean zs) atomcoords = Ok shftcoords ->
  main args w = write_structures args natoms atoms shftcoords 0 zvalues w.
Proof.
  intros Ez Et Er Ec Es. unfold main, OS.bind, OS.lift, OS.read_text.
  now rewrite Ez, Et, Er, Ec, Es.
Qed.

End Run.

(** ** Argument files *)

Module ArgFile.

Import StringFacts.

Lemma lstrip_split (s : string) :
  exists ws, blank ws /\ s = (ws ++ Text.lstrip s)%string
    /\ match Text.lstrip s with
       | String c _ => Text.is_space c = false
       | EmptyString => True
       end.
Proof.
  induction s as [|c s (ws & Hws & Hs & Hc)]; simpl.
  - exists EmptyString. split; [constructor | split; [reflexivity | exact I]].
  - destruct (Text.is_space c) eqn:Ec.
    + exists (String c ws). split; [now constructor | split; [|exact Hc]].
      rewrite append_cons. now rewrite <- Hs.
    + exists EmptyString. split; [constructor | split; [reflexivity | exact Ec]].
Qed.

Lemma lstrip_blank_append (ws s : string) :
  blank ws -> Text.lstrip (ws ++ s) = Text.lstrip s.
Proof.
  unfold blank. induction ws as [|c ws IH]; simpl; intros Hb; [reflexivity|].
  inversion Hb as [|? ? Hc Hb']; subst. rewrite Hc. now apply IH.
Qed.

Lemma lstrip_solid (c : ascii) (s : string) :
  Text.is_space c = false -> Text.lstrip (String c s) = String c s.
Proof. simpl. now intros ->. Qed.

(** Stripping on the right keeps a first character that is not white
    space. *)
Lemma rstrip_solid (c : ascii) (s : string) :
  Text.is_space c = false -> exists t, Text.rstrip (String c s) = String c t.
Proof.
  intros Hc. simpl. destruct (Text.rstrip s) as [|c' t].
  - rewrite Hc. now exists EmptyString.
  - now exists (String c' t).
Qed.

Lemma convert_arg_line_to_args_cases (line : string) :
  convert_arg_line_to_args line = [] \/ convert_arg_line_to_args line = [line].
Proof. unfold convert_arg_line_to_args. destruct (_ || _); auto. Qed.

Lemma comment_dropped (line : string) :
  comment line <-> convert_arg_line_to_args line = [].
Proof.
  unfold convert_arg_line_to_args, Text.strip. split.
  - intros (ws & rest & Hws & [-> | ->]).
    + rewrite <- (append_nil_r ws), lstrip_blank_append by assumption.
      reflexivity.
    + rewrite lstrip_blank_append, lstrip_solid by (assumption || reflexivity).
      destruct (rstrip_solid "#" rest) as [t ->]; [reflexivity|].
      reflexivity.
  - destruct (lstrip_split line) as (ws & Hws & Hline & Hc).
    destruct (Text.lstrip line) as [|c u] eqn:El.
    + intros _. exists ws, EmptyString. split; [assumption|]. left.
      now rewrite append_nil_r in Hline.
    + destruct (rstrip_solid c u Hc) as [t ->]. simpl.
      destruct (Ascii.eqb_spec c "#") as [-> | Hne]; [|discriminate].
      intros _. exists ws, u. auto.
Qed.

End ArgFile.

(** ** The height sequence in exact arithmetic *)

Module ExactFacts.

Local Open Scope Q_scope.

(** The ceiling of [x] is the integer [n] with [n - 1 < x <= n]. *)
Lemma Qceiling_unique (x : Q) (n : Z) :
  inject_Z (n - 1) < x -> x <= inject_Z n -> Qceiling x = n.
Proof.
  intros Hlo Hhi.
  pose proof (Qle_ceiling x) as H1. pose proof (Qceiling_lt x) as H2.
  assert (inject_Z (n - 1) < inject_Z (Qceiling x)) as H3
    by (eapply Qlt_le_trans; eassumption).
  assert (inject_Z (Qceiling x - 1) < inject_Z n) as H4
    by (eapply Qlt_le_trans; eassumption).
  rewrite <- Zlt_Qlt in H3, H4. lia.
Qed.

Lemma Qceiling_plus_1 (x : Q) : Qceiling (x + 1) = (Qceiling x + 1)%Z.
Proof.
  pose proof (Qle_ceiling x) as H1. pose proof (Qceiling_lt x) as H2.
  apply Qceiling_unique.
  - replace (Qceiling x + 1 - 1)%Z with (Qceiling x - 1 + 1)%Z by lia.
    rewrite inject_Z_plus. change (inject_Z 1) with 1. lra.
  - rewrite inject_Z_plus. change (inject_Z 1) with 1. lra.
Qed.

(** An integer is below [x] exactly when it is below the ceiling of [x]. *)
Lemma lt_Qceiling (x : Q) (n : Z) : (n < Qceiling x)%Z <-> inject_Z n < x.
Proof.
  pose proof (Qle_ceiling x) as H1. pose proof (Qceiling_lt x) as H2. split.
  - intros Hn. apply Qle_lt_trans with (inject_Z (Qceiling x - 1)); [|assumption].
    rewrite <- Zle_Qle. lia.
  - intros Hn. rewrite Zlt_Qlt. eapply Qlt_le_trans; eassumption.
Qed.

Lemma is_zero_positive (x : Q) : 0 < x -> is_zero x = false.
Proof.
  intros Hx. simpl. destruct (Qeq_bool x 0) eqn:E; [|reflexivity].
  apply Qeq_bool_eq in E. rewrite E in Hx. now apply Qlt_irrefl in Hx.
Qed.

(** Without rounding, element [i] of [arange] is [start + i * step]. *)
Lemma arange_item_exact (start step : Q) (i : nat) :
  arange_item start step i == start + inject_Z (Z.of_nat i) * step.
Proof.
  destruct i as [|[|i]]; unfold arange_item.
  - simpl. change (inject_Z 0) with 0. ring.
  - simpl. change (inject_Z 1) with 1. ring.
  - simpl add. simpl sub. simpl mul. simpl of_nat. ring.
Qed.

Lemma arange_exact (start stop step : Q) :
  0 < step ->
  arange start stop step
  = Ok (map (arange_item start step)
            (seq 0 (Z.to_nat (Qceiling ((stop - start) / step))))).
Proof. intros Hs. unfold arange. now rewrite is_zero_positive. Qed.

End ExactFacts.

(** ** The shift in exact arithmetic *)

Module ShiftFacts.

Local Open Scope Q_scope.

Lemma fold_left_Qplus (l : list Q) (a : Q) : fold_left Qplus l a == a + Qsum l.
Proof.
  revert a. induction l as [|x l IH]; intros a; simpl.
  - ring.
  - rewrite IH. ring.
Qed.

Lemma mean_exact (zs : list Q) :
  mean zs == Qsum zs / inject_Z (Z.of_nat (length zs)).
Proof.
  unfold mean. simpl. rewrite fold_left_Qplus.
  change (inject_Z 0) with 0. now rewrite Qplus_0_l.
Qed.

Lemma Qsum_shifted (m : Q) (l : list Q) :
  Qsum (map (fun z => z - m) l) == Qsum l - inject_Z (Z.of_nat (length l)) * m.
Proof.
  induction l as [|x l IH].
  - simpl. change (inject_Z 0) with 0. ring.
  - cbn [map Qsum fold_right length]. fold (Qsum (map (fun z => z - m) l)).
    fold (Qsum l). rewrite IH, Nat2Z.inj_succ. unfold Z.succ.
    rewrite inject_Z_plus. change (inject_Z 1) with 1. ring.
Qed.

Section Rows.
Context {R : Type} `{Number R}.

Lemma last_of_rows (coords : list (R * R * R)) :
  mapM (fun r' : list R => match last r' with
                           | Some z => Ok z
                           | None => Raise IndexError
                           end) (map row_of coords)
  = Ok (map z_of coords).
Proof.
  induction coords as [|[[x y] z] l IH]; [reflexivity|].
  cbn [map mapM]. change (last (row_of (x, y, z))) with (Some z).
  cbn [bind]. now rewrite IH.
Qed.

Lemma rows_have_three (n : nat) (coords : list (R * R * R)) :
  n = 3%nat ->
  forallb (fun r' : list R => (length r' =? n)%nat) (map row_of coords) = true.
Proof.
  intros ->. induction coords as [|[[x y] z] l IH]; [reflexivity | exact IH].
Qed.

Lemma last_column_rows (coords : list (R * R * R)) :
  coords <> [] -> last_column (map row_of coords) = Ok (map z_of coords).
Proof.
  intros Hne. unfold last_column.
  destruct (map row_of coords) as [|r rows] eqn:E.
  - destruct coords; [congruence | discriminate].
  - rewrite <- E, rows_have_three, last_of_rows; [reflexivity|].
    destruct coords as [|[[x y] z] l]; [discriminate|].
    now injection E as <- _.
Qed.

Lemma shift_coords_rows (shift : R) (coords : list (R * R * R)) :
  shift_coords shift (map row_of coords)
  = Ok (map (fun '(x, y, z) => (x, y, sub z shift)) coords).
Proof.
  unfold shift_coords. induction coords as [|[[x y] z] l IH]; [reflexivity|].
  cbn [map mapM row_of bind]. now rewrite IH.
Qed.
End Rows.

End ShiftFacts.

(** Whenever the shift goes through, the rows read from the file were
    triples, and there was at least one. *)
Lemma shifted_rows_are_triples {R} `{Number R}
    (atomcoords : list (list R)) (zs : list R) (shift : R) shftcoords :
  last_column atomcoords = Ok zs ->
  shift_coords shift atomcoords = Ok shftcoords ->
  exists coords, coords <> [] /\ atomcoords = map row_of coords.
Proof.
  intros Hc Hs.
  assert (exists coords, atomcoords = map row_of coords) as [coords ->].
  { clear Hc. revert shftcoords Hs. unfold shift_coords.
    induction atomcoords as [|row rows IH]; intros sh Hs.
    - now exists [].
    - cbn [mapM] in Hs.
      destruct row as [|x [|y [|z [|? ?]]]]; try discriminate.
      cbn [bind] in Hs. destruct (mapM _ rows) as [sh'|] eqn:E; [|discriminate].
      destruct (IH sh' eq_refl) as [coords ->]. now exists ((x, y, z) :: coords). }
  exists coords. split; [|reflexivity].
  intros ->. discriminate.
Qed.

(** ** The parser *)

Section Parser.

Context {R : Type} `{Number R}.

(** The loop reads the lines that are there, up to the declared count. *)
Lemma read_coords_length (natoms : Z) (lines : list string) :
  forall (i : nat) atoms (atomcoords : list (list R)),
    read_coords natoms i lines = Ok (atoms, atomcoords) ->
    length atoms = Nat.min (Z.to_nat (natoms - Z.of_nat i)) (length lines)
    /\ length atomcoords = length atoms.
Proof.
  induction lines as [|line rest IH]; intros i atoms atomcoords E; cbn [read_coords] in E.
  - injection E as <- <-. cbn [length]. lia.
  - destruct (Z.of_nat i + 1 >? natoms)%Z eqn:Hi.
    + injection E as <- <-. cbn [length]. lia.
    + destruct (Text.split line) as [|atom tokens]; [discriminate|].
      destruct (mapM float (take 3 tokens)) as [coords|]; [|discriminate].
      cbn [bind] in E.
      destruct (read_coords natoms (S i) rest) as [[atoms' coords']|] eqn:E';
        [|discriminate].
      injection E as <- <-. apply IH in E' as [Ha Hc]. cbn [length].
      rewrite Hc, Ha. lia.
Qed.

(** It raises nothing when these lines are well formed, however few. *)
Lemma read_coords_ok (natoms : Z) (lines : list string) :
  forall i : nat,
    Forall coordinate_line (take (Z.to_nat (natoms - Z.of_nat i)) lines) ->
    exists atoms atomcoords, read_coords natoms i lines = Ok (atoms, atomcoords).
Proof.
  induction lines as [|line rest IH]; intros i Hwf; cbn [read_coords].
  - now exists [], [].
  - destruct (Z.of_nat i + 1 >? natoms)%Z eqn:Hi; [now exists [], []|].
    replace (Z.to_nat (natoms - Z.of_nat i))
      with (S (Z.to_nat (natoms - Z.of_nat (S i)))) in Hwf by lia.
    cbn [take] in Hwf. inversion Hwf as [|? ? Hline Hrest]; subst.
    destruct Hline as (atom & tokens & coords & -> & ->).
    destruct (IH (S i) Hrest) as (atoms & atomcoords & ->).
    now exists (atom :: atoms), (coords :: atomcoords).
Qed.

(** The symbols come from the coordinate lines, in their order. *)
Lemma read_coords_symbols (natoms : Z) (lines : list string) :
  forall (i : nat) atoms (atomcoords : list (list R)),
    read_coords natoms i lines = Ok (atoms, atomcoords) ->
    forall k atom, atoms !! k = Some atom ->
      exists line, lines !! k = Some line /\ symbol_of line = Some atom.
Proof.
  induction lines as [|line rest IH]; intros i atoms atomcoords E; cbn [read_coords] in E.
  - injection E as <- <-. intros k atom Hk. discriminate.
  - destruct (Z.of_nat i + 1 >? natoms)%Z eqn:Hi.
    + injection E as <- <-. intros k atom Hk. discriminate.
    + destruct (Text.split line) as [|atom0 tokens] eqn:Hsplit; [discriminate|].
      destruct (mapM float (take 3 tokens)) as [coords|]; [|discriminate].
      cbn [bind] in E.
      destruct (read_coords natoms (S i) rest) as [[atoms' coords']|] eqn:E';
        [|discriminate].
      injection E as <- <-. intros [|k] atom Hk.
      * injection Hk as <-. exists line. split; [reflexivity|].
        unfold symbol_of. now rewrite Hsplit.
      * exact (IH _ _ _ E' k atom Hk).
Qed.

Lemma mapM_length {A B} (f : A -> result B) (l : list A) (l' : list B) :
  mapM f l = Ok l' -> length l' = length l.
Proof.
  revert l'. induction l as [|a l IH]; intros l' E; cbn [mapM] in E.
  - now injection E as <-.
  - destruct (f a); [|discriminate]. cbn [bind] in E.
    destruct (mapM f l) as [bs|]; [|discriminate].
    injection E as <-. cbn [length]. now rewrite (IH bs).
Qed.

Lemma read_atoms_inv (lines : list string) natoms atoms (atomcoords : list (list R)) :
  read_atoms lines = Ok (natoms, atoms, atomcoords) ->
  declared_count lines = Some natoms
  /\ read_coords natoms 0 (drop 2 lines) = Ok (atoms, atomcoords).
Proof.
  unfold read_atoms, declared_count. destruct lines as [|first [|second rest]];
    try discriminate.
  - destruct (Literal.int _); discriminate.
  - destruct (Literal.int _) as [n|]; [|discriminate]. cbn [bind].
    destruct (read_coords n 0 rest) as [[a c]|] eqn:E; [|discriminate].
    cbn [bind]. intros [= -> -> ->]. split; [reflexivity | exact E].
Qed.

End Parser.

(** * The claims *)

(** C1, as stated: the mean of the shifted z coordinates is 0.  In
    binary64, for two atoms at z = 0.1 and z = 0.2 the shift is
    0.15000000000000002 and the shifted coordinates do not add up to 0,
    neither as floats nor as the exact numbers they stand for. *)
Lemma shifted_mean_not_zero :
  exists (z1 z2 : PrimFloat.float) (c1 c2 : PrimFloat.float * PrimFloat.float * PrimFloat.float)
         (q1 q2 : Q),
    float "0.1" = Ok z1 /\ float "0.2" = Ok z2
    /\ last_column [[zero; zero; z1]; [zero; zero; z2]] = Ok [z1; z2]
    /\ shift_coords (mean [z1; z2]) [[zero; zero; z1]; [zero; zero; z2]] = Ok [c1; c2]
    /\ is_zero (mean [z_of c1; z_of c2]) = false
    /\ Binary64.exact (z_of c1) = Some q1 /\ Binary64.exact (z_of c2) = Some q2
    /\ ~ ((q1 + q2) / 2 == 0)%Q.
Proof.
  do 6 eexists. repeat split; try (vm_compute; reflexivity).
  vm_compute. discriminate.
Qed.

(** C1, amended: for a structure with at least one atom the shift is the
    arithmetic mean of the z coordinates of all its atoms, every atom
    keeps its x and y and gets [z - shift], the lines written for the
    surface pair these coordinates with the element symbols as read, and,
    in exact arithmetic, the mean of the shifted z coordinates is 0. *)
Theorem shift_is_mean_exact (atoms : list string) (coords : list (Q * Q * Q)) :
  coords <> [] ->
  let zs := map z_of coords in
  let shift := mean zs in
  let shifted := map (fun '(x, y, z) => (x, y, (z - shift)%Q)) coords in
  last_column (map row_of coords) = Ok zs
  /\ (shift == Qsum zs / inject_Z (Z.of_nat (length coords)))%Q
  /\ shift_coords shift (map row_of coords) = Ok shifted
  /\ (forall args natoms znew,
        drop 3 (xyz_records args natoms atoms shifted znew)
        = map (fun '(atom, (x, y, z)) => atom_line atom x y (z - shift)%Q)
              (combine atoms coords))
  /\ (mean (map z_of shifted) == 0)%Q.
Proof.
  intros Hne zs shift shifted.
  split; [now apply ShiftFacts.last_column_rows|].
  split; [unfold shift; rewrite ShiftFacts.mean_exact; unfold zs; now rewrite length_map|].
  split; [exact (ShiftFacts.shift_coords_rows shift coords)|].
  split.
  - intros args natoms znew. unfold xyz_records. cbn [app skipn]. rewrite drop_0.
    unfold shifted. clearbody shift. clear. revert atoms.
    induction coords as [|[[x y] z] l IH]; intros [|atom atoms]; try reflexivity.
    cbn [map combine]. f_equal. apply IH.
  - assert (Hz : map z_of shifted = map (fun z => (z - shift)%Q) zs).
    { unfold shifted, zs. rewrite !map_map. apply map_ext. now intros [[x y] z]. }
    rewrite Hz, ShiftFacts.mean_exact, ShiftFacts.Qsum_shifted, length_map.
    unfold shift at 1. rewrite ShiftFacts.mean_exact.
    assert (Hn : ~ (inject_Z (Z.of_nat (length zs)) == 0)%Q).
    { unfold zs. rewrite length_map. destruct coords; [congruence|].
      cbn [length]. rewrite Nat2Z.inj_succ. unfold Z.succ.
      change 0%Q with (inject_Z 0). rewrite inject_Z_injective. lia. }
    field. exact Hn.
Qed.

Lemma shift_is_mean_exact_witness :
  let coords := [(0, 0, 1); (3 # 2, 0, 2); (0, 3 # 2, 3)]%Q in
  coords <> []
  /\ shift_coords (mean (map z_of coords)) (map row_of coords)
     = Ok (map (fun '(x, y, z) => (x, y, (z - mean (map z_of coords))%Q)) coords)
  /\ (mean (map z_of (map (fun '(x, y, z) => (x, y, (z - mean (map z_of coords))%Q)) coords))
      == 0)%Q.
Proof.
  intros coords.
  assert (Hne : coords <> []) by discriminate.
  destruct (shift_is_mean_exact ["C"; "C"; "Si"] coords Hne) as (_ & _ & Hs & _ & Hm).
  split; [exact Hne | split; [exact Hs | exact Hm]].
Defined.

(** C2, as stated: for all [d_min], [d_max] and positive [d_step] the
    height sequence has [ceil((d_max - d_min) / d_step) + 1] elements in
    exact arithmetic.  For [d_min = 5], [d_max = 0], [d_step = 1] the
    sequence is empty and the formula gives [-4]. *)
Lemma height_count_formula_fails :
  let d_min := 5%Q in let d_max := 0%Q in let d_step := 1%Q in
  (0 < d_step)%Q
  /\ ~ (exists zvalues,
          arange d_min (add d_max d_step) d_step = Ok zvalues
          /\ Z.of_nat (length zvalues) = (Qceiling ((d_max - d_min) / d_step) + 1)%Z).
Proof.
  split; [reflexivity|]. intros (zvalues & E & L).
  vm_compute in E. injection E as <-. vm_compute in L. discriminate.
Qed.

(** C2, amended: in exact arithmetic, for all [d_min], [d_max] and
    positive [d_step], the height sequence is [d_min + i * d_step] for
    [i = 0, 1, ...], it holds exactly the values of this progression that
    are strictly less than [d_max + d_step], and its length is
    [max(0, ceil((d_max - d_min) / d_step) + 1)]. *)
Theorem height_sequence_exact (d_min d_max d_step : Q) :
  (0 < d_step)%Q ->
  exists zvalues,
    arange d_min (add d_max d_step) d_step = Ok zvalues
    /\ (forall (i : nat) z, zvalues !! i = Some z ->
          (z == d_min + inject_Z (Z.of_nat i) * d_step)%Q)
    /\ (forall i : nat,
          (i < length zvalues)%nat
          <-> (d_min + inject_Z (Z.of_nat i) * d_step < d_max + d_step)%Q)
    /\ Z.of_nat (length zvalues)
       = Z.max 0 (Qceiling ((d_max - d_min) / d_step) + 1).
Proof.
  intros Hs. eexists. split; [now apply ExactFacts.arange_exact|].
  assert (Hne : ~ (d_step == 0)%Q) by (intros E; rewrite E in Hs; now apply Qlt_irrefl in Hs).
  set (q := ((add d_max d_step - d_min) / d_step)%Q).
  assert (Hq : (q * d_step == d_max + d_step - d_min)%Q)
    by (unfold q; simpl add; field; exact Hne).
  rewrite length_map, length_seq. split; [|split].
  - intros i z Hi. rewrite list_lookup_fmap in Hi.
    destruct (seq 0 (Z.to_nat (Qceiling q)) !! i) as [j|] eqn:Ej; [|discriminate].
    apply lookup_seq in Ej as [-> _]. injection Hi as <-.
    apply ExactFacts.arange_item_exact.
  - intros i. transitivity (Z.of_nat i < Qceiling q)%Z; [lia|].
    rewrite ExactFacts.lt_Qceiling.
    transitivity (inject_Z (Z.of_nat i) * d_step < q * d_step)%Q.
    + symmetry. now apply Qmult_lt_r.
    + rewrite Hq. split; intros; lra.
  - replace (Qceiling q) with (Qceiling ((d_max - d_min) / d_step) + 1)%Z; [lia|].
    rewrite <- ExactFacts.Qceiling_plus_1. apply Qceiling_comp.
    unfold q. simpl add. field. exact Hne.
Qed.

Lemma height_sequence_exact_witness :
  exists zvalues,
    arange 2%Q (add 4%Q 1%Q) 1%Q = Ok zvalues
    /\ (forall (i : nat) z, zvalues !! i = Some z ->
          (z == 2 + inject_Z (Z.of_nat i) * 1)%Q)
    /\ (forall i : nat,
          (i < length zvalues)%nat
          <-> (2 + inject_Z (Z.of_nat i) * 1 < 4 + 1)%Q)
    /\ Z.of_nat (length zvalues) = Z.max 0 (Qceiling ((4 - 2) / 1) + 1).
Proof. apply (height_sequence_exact 2 4 1). reflexivity. Defined.

(** In binary64 the bound itself is subject to rounding: with
    [-dmin 1 -dmax 1.2 -dstep 0.1] the sequence has four elements and the
    last one is not below [d_max + d_step]. *)
Example height_reaches_the_bound :
  exists (args : cmd_line_args PrimFloat.float) zvalues z3,
    Scenario.options "1" "1.2" "0.1" = Ok args
    /\ arange (d_min args) (add (d_max args) (d_step args)) (d_step args) = Ok zvalues
    /\ length zvalues = 4%nat
    /\ zvalues !! 3%nat = Some z3
    /\ PrimFloat.ltb z3 (add (d_max args) (d_step args)) = false.
Proof. do 3 eexists. repeat split; vm_compute; reflexivity. Qed.



(** The namespace of the scenario is what [type=float] makes of the
    option values. *)
Example scenario_arguments :
  Scenario.options "2" "4" "1" = Ok Scenario.arguments.
Proof. vm_compute. reflexivity. Qed.

(** C4: the scenario of three atoms at z = 1.0, 2.0, 3.0 with
    [-dmin 2 -dmax 4 -dstep 1 -atom H -x 0 -y 0], computed in binary64:
    the heights are 2.0, 3.0, 4.0, the shifted z coordinates are -1.0, 0.0,
    1.0, and the run leaves exactly three new files, [_0000], [_0001],
    [_0002], each with the probe at its height above the shifted surface. *)
Theorem scenario_three_files :
  (exists args : cmd_line_args PrimFloat.float,
      Scenario.options "2" "4" "1" = Ok args
      /\ arange (d_min args) (add (d_max args) (d_step args)) (d_step args)
         = Ok [2%float; 3%float; 4%float])
  /\ (forall x1 y1 x2 y2 x3 y3 : PrimFloat.float,
        let atomcoords := [[x1; y1; 1%float]; [x2; y2; 2%float]; [x3; y3; 3%float]] in
        last_column atomcoords = Ok [1%float; 2%float; 3%float]
        /\ mean [1%float; 2%float; 3%float] = 2%float
        /\ shift_coords 2%float atomcoords
           = Ok [(x1, y1, (-1)%float); (x2, y2, 0%float); (x3, y3, 1%float)])
  /\ Scenario.run (R := PrimFloat.float) "2" "4" "1" Scenario.world
     = (OS.World
          (<["out_0000.xyz" := OS.File (Scenario.expected "2.00000000")]>
             (<["out_0001.xyz" := OS.File (Scenario.expected "3.00000000")]>
                (<["out_0002.xyz" := OS.File (Scenario.expected "4.00000000")]>
                   (OS.files Scenario.world))))
          (1000000 - 3 * N.of_nat (String.length (Scenario.expected "2.00000000")))
          [ "Writing new file for d=2.00000000 ... ";
            ("done! (New file: out_0000.xyz)" ++ nl)%string;
            "Writing new file for d=3.00000000 ... ";
            ("done! (New file: out_0001.xyz)" ++ nl)%string;
            "Writing new file for d=4.00000000 ... ";
            ("done! (New file: out_0002.xyz)" ++ nl)%string ],
        Ok tt).
Proof.
  split; [|split].
  - eexists. split; vm_compute; reflexivity.
  - intros. repeat split; vm_compute; reflexivity.
  - vm_compute. reflexivity.
Qed.

(** C5, as stated: an input file that declares more atoms than it has
    coordinate lines makes the parser fail, and nothing is written.  For a
    file that declares three atoms and has one coordinate line the parser
    returns one atom, and the run writes its files: each states a count of
    4 and holds the probe and one surface atom. *)
Lemma short_input_is_not_rejected :
  let lines := map Text.strip (Text.readlines Scenario.truncated) in
  exists natoms atoms (atomcoords : list (list PrimFloat.float)) w',
    (Z.of_nat (length (drop 2 lines)) < natoms)%Z
    /\ read_atoms lines = Ok (natoms, atoms, atomcoords)
    /\ Z.of_nat (length atoms) <> natoms
    /\ main Scenario.arguments (Scenario.world_with Scenario.truncated) = (w', Ok tt)
    /\ OS.files w' !! "out_0000.xyz"
       = Some (OS.File ("   4" ++ nl
                        ++ "Atom-surface distance: 2.00000000" ++ nl
                        ++ "H      0.00000000    0.00000000    2.00000000" ++ nl
                        ++ "C      0.00000000    0.00000000    0.00000000" ++ nl)).
Proof.
  intros lines. do 4 eexists.
  split; [|split; [vm_compute; reflexivity|]].
  - vm_compute. reflexivity.
  - split; [vm_compute; discriminate|].
    split; vm_compute; reflexivity.
Qed.

(** C5, amended: the parser does not compare the declared atom count with
    the number of coordinate lines.  Whenever the count line is an integer
    and the coordinate lines that are there, up to the declared count, are
    well formed, it raises nothing and returns the declared count with the
    atoms of these lines; the number of atoms parsed is the smaller of the
    declared count and the number of coordinate lines. *)
Theorem parser_takes_available_lines {R} `{Number R}
    (first second : string) (rest : list string) (natoms : Z) :
  Literal.int (Text.strip (Text.before "#" first)) = Ok natoms ->
  Forall coordinate_line (take (Z.to_nat natoms) rest) ->
  exists atoms (atomcoords : list (list R)),
    read_atoms (first :: second :: rest) = Ok (natoms, atoms, atomcoords)
    /\ length atoms = Nat.min (Z.to_nat natoms) (length rest)
    /\ length atomcoords = length atoms.
Proof.
  intros Hint Hwf. unfold read_atoms. rewrite Hint. cbn [bind].
  destruct (read_coords_ok natoms rest 0) as (atoms & atomcoords & E).
  { now replace (natoms - Z.of_nat 0)%Z with natoms by lia. }
  rewrite E. cbn [bind]. exists atoms, atomcoords. split; [reflexivity|].
  apply read_coords_length in E as [Ha Hc].
  replace (natoms - Z.of_nat 0)%Z with natoms in Ha by lia. now split.
Qed.

Lemma parser_takes_available_lines_witness :
  Literal.int (Text.strip (Text.before "#" "3 # atoms")) = Ok 3%Z
  /\ Forall (coordinate_line (R := PrimFloat.float)) (take (Z.to_nat 3) ["C 0.0 0.0 1.0"])
  /\ exists atoms (atomcoords : list (list PrimFloat.float)),
      read_atoms ["3 # atoms"; "three atoms"; "C 0.0 0.0 1.0"] = Ok (3%Z, atoms, atomcoords)
      /\ length atoms = Nat.min (Z.to_nat 3) (length ["C 0.0 0.0 1.0"])
      /\ length atomcoords = length atoms.
Proof.
  assert (H1 : Literal.int (Text.strip (Text.before "#" "3 # atoms")) = Ok 3%Z)
    by reflexivity.
  assert (H2 : Forall (coordinate_line (R := PrimFloat.float))
                 (take (Z.to_nat 3) ["C 0.0 0.0 1.0"])).
  { repeat constructor. do 3 eexists. split; vm_compute; reflexivity. }
  split; [exact H1 | split; [exact H2|]].
  exact (parser_takes_available_lines "3 # atoms" "three atoms" ["C 0.0 0.0 1.0"] 3 H1 H2).
Defined.


(** A second generation: the file of an earlier run is moved over the
    backup of the run before it, which is lost. *)
Example backup_replaces_backup :
  let w := OS.World (<["out_0000.xyz" := OS.File "previous"]>
                       (<["out_0000.xyz.BAK" := OS.File "the one before"]>
                          (OS.files Scenario.world))) 1000000 [] in
  exists w', Scenario.run (R := PrimFloat.float) "2" "4" "1" w = (w', Ok tt)
    /\ OS.files w' !! "out_0000.xyz.BAK" = Some (OS.File "previous")
    /\ OS.files w' !! "out_0000.xyz" = Some (OS.File (Scenario.expected "2.00000000"))
    /\ head (OS.stdout w')
       = Some (warning_message "out_0000.xyz").
Proof. eexists. repeat split; vm_compute; reflexivity. Qed.

(** A directory in the place of the backup: the renaming raises, the
    exception is not caught and no file is written. *)
Example backup_is_a_directory :
  let w := OS.World (<["out_0000.xyz" := OS.File "previous"]>
                       (<["out_0000.xyz.BAK" := OS.Dir true]>
                          (OS.files Scenario.world))) 1000000 [] in
  Scenario.run (R := PrimFloat.float) "2" "4" "1" w = (w, Raise IsADirectoryError).
Proof. vm_compute. reflexivity. Qed.

(** A device with room for one file: the second write raises, the third
    file is never started. *)
Example device_full :
  let w := OS.World (OS.files Scenario.world) 300 [] in
  exists w', Scenario.run (R := PrimFloat.float) "2" "4" "1" w
             = (w', Raise (OSError "ENOSPC"))
    /\ OS.files w' !! "out_0000.xyz" = Some (OS.File (Scenario.expected "2.00000000"))
    /\ OS.files w' !! "out_0002.xyz" = None.
Proof. eexists. repeat split; vm_compute; reflexivity. Qed.



(** C8, as stated: with [d_min == d_max] and a positive step there is one
    height and one output file.  In binary64, [-dmin 1 -dmax 1 -dstep 0.1]
    gives two: [(1 + 0.1) - 1] is larger than [0.1], the quotient by the
    step is larger than 1 and its ceiling is 2. *)
Lemma equal_bounds_two_heights :
  exists (args : cmd_line_args PrimFloat.float) (w' : OS.world),
    Scenario.options "1" "1" "0.1" = Ok args
    /\ d_min args = d_max args
    /\ PrimFloat.ltb zero (d_step args) = true
    /\ ceil (div (sub (add (d_max args) (d_step args)) (d_min args)) (d_step args)) = Ok 2%Z
    /\ ~ (exists z, arange (d_min args) (add (d_max args) (d_step args)) (d_step args)
                    = Ok [z])
    /\ main args Scenario.world = (w', Ok tt)
    /\ is_Some (OS.files w' !! "out_0000.xyz")
    /\ is_Some (OS.files w' !! "out_0001.xyz").
Proof.
  eexists. eexists. split; [vm_compute; reflexivity|].
  repeat split; try (vm_compute; reflexivity).
  - intros [z E]. vm_compute in E. discriminate.
  - vm_compute. eauto.
  - vm_compute. eauto.
Qed.

(** C8, amended: in exact arithmetic, with [d_min == d_max] and a positive
    step, the height sequence is [d_min] alone, the run is one pass of the
    loop, and a run that ends normally has written the file of index 0 and
    touched no other name but that of its backup. *)
Theorem equal_bounds_one_height_exact (args : cmd_line_args Q) :
  (d_min args == d_max args)%Q ->
  (0 < d_step args)%Q ->
  arange (d_min args) (add (d_max args) (d_step args)) (d_step args)
  = Ok [d_min args]
  /\ (forall w text natoms atoms atomcoords zs shftcoords,
        OS.files w !! inpxyz args = Some (OS.File text) ->
        read_atoms (map Text.strip (Text.readlines text)) = Ok (natoms, atoms, atomcoords) ->
        last_column atomcoords = Ok zs ->
        shift_coords (mean zs) atomcoords = Ok shftcoords ->
        main args w
        = OS.bind (write_structure args natoms atoms shftcoords 0 (d_min args))
                  (fun _ => OS.ret tt) w)
  /\ (forall w w',
        main args w = (w', Ok tt) ->
        (exists text,
            OS.files w' !! newfile_name (outname args) 0 = Some (OS.File text))
        /\ forall p,
            p <> newfile_name (outname args) 0 ->
            p <> (newfile_name (outname args) 0 ++ ".BAK")%string ->
            OS.files w' !! p = OS.files w !! p).
Proof.
  intros Heq Hs.
  assert (Hz : arange (d_min args) (add (d_max args) (d_step args)) (d_step args)
               = Ok [d_min args]).
  { rewrite ExactFacts.arange_exact by assumption.
    replace (Qceiling _) with 1%Z; [reflexivity|].
    symmetry. apply ExactFacts.Qceiling_unique.
    - simpl add. rewrite <- Heq. change (inject_Z (1 - 1)) with 0%Q.
      apply Qlt_shift_div_l; [assumption|]. lra.
    - simpl add. rewrite <- Heq. change (inject_Z 1) with 1%Q.
      apply Qle_shift_div_r; [assumption|]. lra. }
  split; [exact Hz | split].
  - intros w text natoms atoms atomcoords zs shftcoords Ht Hr Hc Hsh.
    now rewrite (main_eq args w _ _ _ _ _ _ _ Hz Ht Hr Hc Hsh).
  - intros w w' E.
    destruct (main_ok args w w' E)
      as (zvalues & text & natoms & atoms & atomcoords & zs & shftcoords
          & Ez & _ & _ & _ & _ & Hloop).
    rewrite Hz in Ez. injection Ez as <-.
    apply write_structures_ok in Hloop as [Hfiles Hframe]. split.
    + eexists. apply (Hfiles 0%nat). reflexivity.
    + intros p Hp1 Hp2. apply Hframe. intros k Hk. simpl in Hk.
      replace k with 0%nat by lia. now split.
Qed.

Lemma equal_bounds_one_height_exact_witness :
  let args := Args "surf.xyz" "out" 2%Q 2%Q 1%Q "H" 0%Q 0%Q in
  (d_min args == d_max args)%Q
  /\ (0 < d_step args)%Q
  /\ arange (d_min args) (add (d_max args) (d_step args)) (d_step args) = Ok [2%Q]
  /\ exists w', main args Scenario.world = (w', Ok tt)
                /\ is_Some (OS.files w' !! "out_0000.xyz")
                /\ OS.files w' !! "out_0001.xyz" = OS.files Scenario.world !! "out_0001.xyz".
Proof.
  intros args.
  assert (H1 : (d_min args == d_max args)%Q) by reflexivity.
  assert (H2 : (0 < d_step args)%Q) by reflexivity.
  destruct (equal_bounds_one_height_exact args H1 H2) as (Hz & _ & Hok).
  split; [exact H1 | split; [exact H2 | split; [exact Hz|]]].
  eexists. split; [vm_compute; reflexivity|].
  match goal with |- context [OS.files ?w' !! _] =>
    destruct (Hok Scenario.world w') as [[text Ht] Hframe]; [vm_compute; reflexivity|]
  end.
  split; [exists (OS.File text); exact Ht|].
  apply Hframe; vm_compute; discriminate.
Defined.

(** The count can also fall to zero: at 1e16 the step 1 is lost in the
    sum [d_max + d_step], the bound equals [d_min] and nothing is written. *)
Example equal_bounds_no_height :
  exists args : cmd_line_args PrimFloat.float,
    Scenario.options "1e16" "1e16" "1" = Ok args
    /\ d_min args = d_max args
    /\ arange (d_min args) (add (d_max args) (d_step args)) (d_step args) = Ok []
    /\ main args Scenario.world = (Scenario.world, Ok tt).
Proof. eexists. repeat split; vm_compute; reflexivity. Qed.

(** C9, as stated: the lines of an argument file that are dropped are
    exactly the blank lines and the lines whose first character is [#].
    This fails for a comment that is indented: the line is dropped, it is
    not blank, and its first character is a space. *)
Lemma indented_comment_is_dropped :
  let line := "  # heights in angstrom" in
  ~ (convert_arg_line_to_args line = []
     <-> blank line \/ exists rest, line = String "#" rest).
Proof.
  intros line [Hdrop _]. destruct (Hdrop eq_refl) as [Hb | [rest Hr]].
  - unfold blank in Hb. simpl in Hb.
    do 2 (apply Forall_inv_tail in Hb). apply Forall_inv in Hb. discriminate.
  - discriminate.
Qed.

(** C9, amended: a line of an argument file is dropped exactly when it is
    blank or its first character that is not white space is [#]; every
    other line becomes one argument, the line itself, white space included.
    The arguments of the file are its remaining lines, in order. *)
Theorem argument_file_lines (lines : list string) :
  (forall line,
      (comment line <-> convert_arg_line_to_args line = [])
      /\ (~ comment line <-> convert_arg_line_to_args line = [line]))
  /\ (forall arg, In arg (args_of_lines lines) <-> In arg lines /\ ~ comment arg)
  /\ sublist (args_of_lines lines) lines.
Proof.
  assert (Hline : forall line,
      (comment line <-> convert_arg_line_to_args line = [])
      /\ (~ comment line <-> convert_arg_line_to_args line = [line])).
  { intros line. pose proof (ArgFile.comment_dropped line) as Hc.
    split; [exact Hc|].
    destruct (ArgFile.convert_arg_line_to_args_cases line) as [E | E]; rewrite E in *.
    - split; [intros Hn; exfalso; apply Hn; now apply Hc | discriminate].
    - split; [reflexivity | intros _ Hn; apply Hc in Hn; discriminate]. }
  split; [exact Hline | split].
  - intros arg. unfold args_of_lines. rewrite in_flat_map. split.
    + intros (line & Hin & Harg).
      destruct (ArgFile.convert_arg_line_to_args_cases line) as [E | E];
        rewrite E in Harg; [destruct Harg|].
      destruct Harg as [<- | []]. split; [assumption|].
      now apply (proj2 (Hline line)).
    + intros [Hin Hn]. exists arg. split; [assumption|].
      apply (proj2 (Hline arg)) in Hn. rewrite Hn. now left.
  - unfold args_of_lines. induction lines as [|line lines IH]; simpl.
    + constructor.
    + destruct (ArgFile.convert_arg_line_to_args_cases line) as [E | E]; rewrite E; simpl.
      * now constructor.
      * now constructor.
Qed.

(** C10: two runs with the same arguments on the same input text write
    the same text under every output name, whatever else the two
    directories hold, however much room they have, and whatever was
    printed before. *)
Theorem runs_write_the_same {R} `{Number R}
    (args : cmd_line_args R) (w1 w2 w1' w2' : OS.world) :
  OS.files w1 !! inpxyz args = OS.files w2 !! inpxyz args ->
  main args w1 = (w1', Ok tt) ->
  main args w2 = (w2', Ok tt) ->
  exists zvalues natoms atoms shftcoords,
    arange (d_min args) (add (d_max args) (d_step args)) (d_step args) = Ok zvalues
    /\ forall i znew, zvalues !! i = Some znew ->
         OS.files w1' !! newfile_name (outname args) i
         = Some (OS.File (xyz_text args natoms atoms shftcoords znew))
         /\ OS.files w2' !! newfile_name (outname args) i
            = Some (OS.File (xyz_text args natoms atoms shftcoords znew)).
Proof.
  intros Hinp E1 E2.
  destruct (main_ok args w1 w1' E1)
    as (zvalues & text & natoms & atoms & atomcoords & zs & shftcoords
        & Ez & Ht & Hr & Hc & Hs & Hloop1).
  destruct (main_ok args w2 w2' E2)
    as (zvalues' & text' & natoms' & atoms' & atomcoords' & zs' & shftcoords'
        & Ez' & Ht' & Hr' & Hc' & Hs' & Hloop2).
  rewrite Ez in Ez'. injection Ez' as <-.
  rewrite Hinp, Ht' in Ht. injection Ht as <-.
  rewrite Hr in Hr'. injection Hr' as <- <- <-.
  rewrite Hc in Hc'. injection Hc' as <-.
  rewrite Hs in Hs'. injection Hs' as <-.
  apply write_structures_ok in Hloop1 as [Hfiles1 _].
  apply write_structures_ok in Hloop2 as [Hfiles2 _].
  exists zvalues, natoms, atoms, shftcoords. split; [exact Ez|].
  intros i znew Hi. split; [exact (Hfiles1 i znew Hi) | exact (Hfiles2 i znew Hi)].
Qed.

Lemma runs_write_the_same_witness :
  exists w1' w2',
    OS.files Scenario.world !! "surf.xyz" = OS.files Scenario.used_world !! "surf.xyz"
    /\ main Scenario.arguments Scenario.world = (w1', Ok tt)
    /\ main Scenario.arguments Scenario.used_world = (w2', Ok tt)
    /\ exists zvalues natoms atoms shftcoords,
         arange 2%float (add 4%float 1%float) 1%float = Ok zvalues
         /\ forall i znew, zvalues !! i = Some znew ->
              OS.files w1' !! newfile_name "out" i
              = Some (OS.File (xyz_text Scenario.arguments natoms atoms shftcoords znew))
              /\ OS.files w2' !! newfile_name "out" i
                 = Some (OS.File (xyz_text Scenario.arguments natoms atoms shftcoords znew)).
Proof.
  eexists. eexists.
  split; [vm_compute; reflexivity|].
  split; [vm_compute; reflexivity|].
  split; [vm_compute; reflexivity|].
  apply (runs_write_the_same Scenario.arguments Scenario.world Scenario.used_world);
    vm_compute; reflexivity.
Defined.

(** * Further properties of the script *)

(** ** The loop, whatever its outcome *)

Section LoopTrace.

Context {R : Type} `{Number R}.
Variable args : cmd_line_args R.
Variable natoms : Z.
Variable atoms : list string.
Variable shftcoords : list (R * R * R).

Local Open Scope io_scope.

Let newfile := newfile_name (outname args).
Let backup (i : nat) : string := (newfile i ++ ".BAK")%string.
Let text := xyz_text args natoms atoms shftcoords.
Let step := write_structure args natoms atoms shftcoords.
Let loop := write_structures args natoms atoms shftcoords.

(** A pass touches the name of its file and the name of its backup, and
    no other, also when it raises. *)
Lemma write_structure_frame (i : nat) (znew : R) (w w' : OS.world) (r : result unit) :
  step i znew w = (w', r) ->
  forall p, p <> newfile i -> p <> backup i -> OS.files w' !! p = OS.files w !! p.
Proof.
  unfold step, write_structure, backup_existing, OS.bind,
    OS.try_except_FileNotFoundError, OS.rename, OS.write_text, OS.print, OS.ret.
  fold (newfile i). fold (backup i). fold (text znew).
  intros E p Hp1 Hp2.
  repeat (break_match; simplify_eq; cbn [OS.files OS.free OS.stdout] in *; try done).
  all: by rewrite ?lookup_insert_ne, ?lookup_delete_ne by done.
Qed.

(** What a pass that ends normally does to the backup and to the output. *)
Lemma write_structure_trace (i : nat) (znew : R) (w w' : OS.world) :
  step i znew w = (w', Ok tt) ->
  OS.files w' !! backup i
  = match OS.files w !! newfile i with
    | Some n => Some n
    | None => OS.files w !! backup i
    end
  /\ OS.stdout w'
     = OS.stdout w
       ++ (if taken w (newfile i) then [warning_message (newfile i)] else [])
       ++ [writing_message znew; done_message (newfile i)].
Proof.
  pose proof (Names.newfile_name_not_backup (outname args) i i) as Hne.
  unfold taken, step, write_structure, backup_existing, OS.bind,
    OS.try_except_FileNotFoundError, OS.rename, OS.write_text, OS.print, OS.ret.
  fold (newfile i) in *. fold (backup i) in *. fold (text znew).
  intros E.
  repeat (break_match; simplify_eq; cbn [OS.files OS.free OS.stdout] in *; try done).
  all: split; [by rewrite ?lookup_insert_ne, ?lookup_insert_eq by done
              | by rewrite <- ?app_assoc].
Qed.

(** The loop touches the names of its files and of their backups, and no
    other, also when it raises. *)
Lemma write_structures_frame (zvalues : list R) :
  forall (i : nat) (w w' : OS.world) (r : result unit),
    loop i zvalues w = (w', r) ->
    forall p,
      (forall k, (k < length zvalues)%nat -> p <> newfile (i + k) /\ p <> backup (i + k)) ->
      OS.files w' !! p = OS.files w !! p.
Proof.
  induction zvalues as [|z zs IH]; intros i w w' r E p Hp.
  - now injection E as <- <-.
  - change (loop i (z :: zs)) with (step i z ;; loop (S i) zs) in E.
    unfold OS.bind in E.
    destruct (step i z w) as [w1 r1] eqn:E1.
    destruct (Hp 0%nat) as [Hp1 Hp2]; [simpl; lia|]. rewrite Nat.add_0_r in Hp1, Hp2.
    pose proof (write_structure_frame i z w w1 r1 E1 p Hp1 Hp2) as Hstep.
    destruct r1 as [[]|e]; [|now injection E as <- <-].
    rewrite <- Hstep. apply (IH (S i) w1 w' r E).
    intros k Hk. replace (S i + k)%nat with (i + S k)%nat by lia.
    apply Hp. simpl. lia.
Qed.

(** A loop that raises stops at one pass: the files of the passes before
    it are in place, the names of the passes after it are as they were. *)
Lemma write_structures_raise (zvalues : list R) :
  forall (i : nat) (w w' : OS.world) (e : exn),
    loop i zvalues w = (w', Raise e) ->
    exists k znew wk,
      zvalues !! k = Some znew
      /\ step (i + k) znew wk = (w', Raise e)
      /\ (forall j z, (j < k)%nat -> zvalues !! j = Some z ->
            OS.files w' !! newfile (i + j) = Some (OS.File (text z)))
      /\ (forall j, (k < j)%nat ->
            OS.files w' !! newfile (i + j) = OS.files w !! newfile (i + j)
            /\ OS.files w' !! backup (i + j) = OS.files w !! backup (i + j)).
Proof.
  induction zvalues as [|z zs IH]; intros i w w' e E.
  - discriminate.
  - change (loop i (z :: zs)) with (step i z ;; loop (S i) zs) in E.
    unfold OS.bind in E.
    destruct (step i z w) as [w1 r1] eqn:E1.
    assert (Hother : forall j, (0 < j)%nat ->
              OS.files w1 !! newfile (i + j) = OS.files w !! newfile (i + j)
              /\ OS.files w1 !! backup (i + j) = OS.files w !! backup (i + j)).
    { intros j Hj. split; apply (write_structure_frame i z w w1 r1 E1).
      - intros Eq. apply Names.newfile_name_inj in Eq. lia.
      - apply Names.newfile_name_not_backup.
      - intros Eq. symmetry in Eq. now apply Names.newfile_name_not_backup in Eq.
      - intros Eq. apply StringFacts.append_inv_tail, Names.newfile_name_inj in Eq. lia. }
    destruct r1 as [[]|e1].
    + destruct (IH (S i) w1 w' e E) as (k & znew & wk & Hk & Hstep & Hbefore & Hafter).
      exists (S k), znew, wk.
      replace (i + S k)%nat with (S i + k)%nat by lia.
      split; [exact Hk | split; [exact Hstep | split]].
      * intros [|j] z0 Hj Hz0; simpl in Hz0.
        -- injection Hz0 as <-. rewrite Nat.add_0_r.
           apply write_structure_ok in E1 as [Hnew _].
           transitivity (OS.files w1 !! newfile i); [|exact Hnew].
           apply (write_structures_frame zs (S i) w1 w' _ E).
           intros k' _. split.
           ++ intros Eq. apply Names.newfile_name_inj in Eq. lia.
           ++ apply Names.newfile_name_not_backup.
        -- replace (i + S j)%nat with (S i + j)%nat by lia.
           apply Hbefore; [lia | exact Hz0].
      * intros j Hj. destruct j as [|j]; [lia|].
        destruct (Hafter j ltac:(lia)) as [Ha Hb].
        destruct (Hother (S j) ltac:(lia)) as [Hc Hd].
        replace (S i + j)%nat with (i + S j)%nat in Ha, Hb by lia.
        split; congruence.
    + injection E as <- <-. exists 0%nat, z, w.
      rewrite Nat.add_0_r.
      split; [reflexivity | split; [exact E1 | split]].
      * intros j z0 Hj. lia.
      * intros j Hj. apply Hother. lia.
Qed.

(** A loop that ends normally has moved every file it found under one of
    its names to the backup, has left the other backups alone, and has
    printed its progress. *)
Lemma write_structures_trace (zvalues : list R) :
  forall (i : nat) (w w' : OS.world),
    loop i zvalues w = (w', Ok tt) ->
    (forall k, (k < length zvalues)%nat ->
       OS.files w' !! backup (i + k)
       = match OS.files w !! newfile (i + k) with
         | Some n => Some n
         | None => OS.files w !! backup (i + k)
         end)
    /\ OS.stdout w' = OS.stdout w ++ progress (outname args) (taken w) i zvalues.
Proof.
  induction zvalues as [|z zs IH]; intros i w w' E.
  - injection E as <-. split; [intros k Hk; simpl in Hk; lia|].
    simpl. now rewrite app_nil_r.
  - change (loop i (z :: zs)) with (step i z ;; loop (S i) zs) in E.
    unfold OS.bind in E.
    destruct (step i z w) as [w1 [[]|e1]] eqn:E1; [|discriminate].
    pose proof (write_structure_trace i z w w1 E1) as [Hb1 Hout1].
    pose proof (write_structure_frame i z w w1 _ E1) as Hframe1.
    destruct (IH (S i) w1 w' E) as [Hb Hout].
    assert (Hlater : forall k,
              OS.files w1 !! newfile (S i + k) = OS.files w !! newfile (S i + k)
              /\ OS.files w1 !! backup (S i + k) = OS.files w !! backup (S i + k)).
    { intros k. split; apply Hframe1.
      - intros Eq. apply Names.newfile_name_inj in Eq. lia.
      - apply Names.newfile_name_not_backup.
      - intros Eq. symmetry in Eq. now apply Names.newfile_name_not_backup in Eq.
      - intros Eq. apply StringFacts.append_inv_tail, Names.newfile_name_inj in Eq. lia. }
    split.
    + intros [|k] Hk.
      * rewrite Nat.add_0_r, <- Hb1.
        apply (write_structures_frame zs (S i) w1 w' _ E).
        intros k' _. split.
        -- intros Eq. symmetry in Eq. now apply Names.newfile_name_not_backup in Eq.
        -- intros Eq. apply StringFacts.append_inv_tail, Names.newfile_name_inj in Eq. lia.
      * replace (i + S k)%nat with (S i + k)%nat by lia.
        rewrite Hb by (simpl in Hk; lia).
        destruct (Hlater k) as [-> ->]. reflexivity.
    + rewrite Hout, Hout1. cbn [progress]. fold (newfile i).
      rewrite <- !app_assoc. do 2 f_equal. cbn [app]. do 2 f_equal.
      clear -Hlater. generalize (Nat.le_refl (S i)). generalize (S i) at 2 3 4 as j.
      induction zs as [|z' zs' IHz]; intros j Hj; [reflexivity|].
      cbn [progress]. rewrite (IHz (S j)) by lia.
      f_equal. unfold taken.
      replace j with (S i + (j - S i))%nat by lia.
      fold (newfile (S i + (j - S i))). now destruct (Hlater (j - S i)%nat) as [-> _].
Qed.

End LoopTrace.

(** ** The run, whatever its outcome *)

(** A run that raises before the loop leaves the directory and the output
    as they were; otherwise it is the loop that ends it. *)
Lemma main_cases {R} `{Number R} (args : cmd_line_args R) (w : OS.world) :
  (exists e, main args w = (w, Raise e))
  \/ (exists zvalues natoms atoms shftcoords,
        arange (d_min args) (add (d_max args) (d_step args)) (d_step args) = Ok zvalues
        /\ main args w = write_structures args natoms atoms shftcoords 0 zvalues w).
Proof.
  unfold main, OS.bind, OS.lift, OS.read_text.
  destruct (arange _ _ _) as [zvalues|e]; [|left; now exists e].
  destruct (OS.files w !! inpxyz args) as [[text|]|]; try (left; eauto; fail).
  destruct (read_atoms _) as [[[natoms atoms] atomcoords]|e]; [|left; now exists e].
  destruct (last_column atomcoords) as [zs|e]; [|left; now exists e].
  destruct (shift_coords _ _) as [shftcoords|e]; [|left; now exists e].
  right. now exists zvalues, natoms, atoms, shftcoords.
Qed.



(** X2: a run that raises either raised before the loop, and then the
    directory and the output are as they were, or it raised in one pass of
    the loop: the files of the passes before it stay in place, complete,
    and the names of the later passes and their backups are as they were. *)
Theorem failed_run_keeps_earlier_files {R} `{Number R}
    (args : cmd_line_args R) (w w' : OS.world) (e : exn) :
  main args w = (w', Raise e) ->
  w' = w
  \/ exists zvalues natoms atoms shftcoords k,
       arange (d_min args) (add (d_max args) (d_step args)) (d_step args) = Ok zvalues
       /\ (k < length zvalues)%nat
       /\ (forall j z, (j < k)%nat -> zvalues !! j = Some z ->
             OS.files w' !! newfile_name (outname args) j
             = Some (OS.File (xyz_text args natoms atoms shftcoords z)))
       /\ (forall j, (k < j)%nat ->
             OS.files w' !! newfile_name (outname args) j
             = OS.files w !! newfile_name (outname args) j
             /\ OS.files w' !! (newfile_name (outname args) j ++ ".BAK")%string
                = OS.files w !! (newfile_name (outname args) j ++ ".BAK")%string).
Proof.
  intros E.
  destruct (main_cases args w)
    as [[e' E'] | (zvalues & natoms & atoms & shftcoords & Hz & E')]; rewrite E' in E.
  - left. now injection E as <-.
  - right.
    destruct (write_structures_raise args natoms atoms shftcoords zvalues 0 w w' e E)
      as (k & znew & wk & Hk & _ & Hbefore & Hafter).
    exists zvalues, natoms, atoms, shftcoords, k.
    split; [exact Hz | split; [apply lookup_lt_is_Some; eauto | split]].
    + intros j z Hj Hz0. exact (Hbefore j z Hj Hz0).
    + intros j Hj. exact (Hafter j Hj).
Qed.

Lemma failed_run_keeps_earlier_files_witness :
  let args := Scenario.arguments in
  let w := OS.World (OS.files Scenario.world) 300 [] in
  let w' := fst (main args w) in
  main args w = (w', Raise (OSError "ENOSPC"))
  /\ (w' = w
      \/ exists zvalues natoms atoms shftcoords k,
           arange (d_min args) (add (d_max args) (d_step args)) (d_step args) = Ok zvalues
           /\ (k < length zvalues)%nat
           /\ (forall j z, (j < k)%nat -> zvalues !! j = Some z ->
                 OS.files w' !! newfile_name (outname args) j
                 = Some (OS.File (xyz_text args natoms atoms shftcoords z)))
           /\ (forall j, (k < j)%nat ->
                 OS.files w' !! newfile_name (outname args) j
                 = OS.files w !! newfile_name (outname args) j
                 /\ OS.files w' !! (newfile_name (outname args) j ++ ".BAK")%string
                    = OS.files w !! (newfile_name (outname args) j ++ ".BAK")%string)).
Proof.
  intros args w w'.
  assert (E : main args w = (w', Raise (OSError "ENOSPC"))) by (vm_compute; reflexivity).
  split; [exact E|].
  exact (failed_run_keeps_earlier_files args w w' _ E).
Defined.

(** X3: a run that ends normally has moved whatever it found under the
    name of an output file to the name of its backup, and has left the
    backup alone where it found nothing. *)
Theorem run_moves_what_it_finds {R} `{Number R}
    (args : cmd_line_args R) (w w' : OS.world) :
  main args w = (w', Ok tt) ->
  exists zvalues,
    arange (d_min args) (add (d_max args) (d_step args)) (d_step args) = Ok zvalues
    /\ forall i, (i < length zvalues)%nat ->
         OS.files w' !! (newfile_name (outname args) i ++ ".BAK")%string
         = match OS.files w !! newfile_name (outname args) i with
           | Some n => Some n
           | None => OS.files w !! (newfile_name (outname args) i ++ ".BAK")%string
           end.
Proof.
  intros E.
  destruct (main_ok args w w' E)
    as (zvalues & text & natoms & atoms & atomcoords & zs & shftcoords
        & Ez & _ & _ & _ & _ & Hloop).
  exists zvalues. split; [exact Ez|].
  intros i Hi.
  exact (proj1 (write_structures_trace args natoms atoms shftcoords zvalues 0 w w' Hloop) i Hi).
Qed.

Lemma run_moves_what_it_finds_witness :
  let args := Scenario.arguments in
  let w := Scenario.used_world in
  let w' := fst (main args w) in
  main args w = (w', Ok tt)
  /\ exists zvalues,
       arange (d_min args) (add (d_max args) (d_step args)) (d_step args) = Ok zvalues
       /\ forall i, (i < length zvalues)%nat ->
            OS.files w' !! (newfile_name (outname args) i ++ ".BAK")%string
            = match OS.files w !! newfile_name (outname args) i with
              | Some n => Some n
              | None => OS.files w !! (newfile_name (outname args) i ++ ".BAK")%string
              end.
Proof.
  intros args w w'.
  assert (E : main args w = (w', Ok tt)) by (vm_compute; reflexivity).
  split; [exact E | exact (run_moves_what_it_finds args w w' E)].
Defined.

(** X4: a run that ends normally prints, for each height in order, a
    warning when the name of the file was taken before the run, then the
    announcement of the height and the confirmation with the name; it
    prints nothing else. *)
Theorem run_reports_progress {R} `{Number R}
    (args : cmd_line_args R) (w w' : OS.world) :
  main args w = (w', Ok tt) ->
  exists zvalues,
    arange (d_min args) (add (d_max args) (d_step args)) (d_step args) = Ok zvalues
    /\ OS.stdout w' = OS.stdout w ++ progress (outname args) (taken w) 0 zvalues.
Proof.
  intros E.
  destruct (main_ok args w w' E)
    as (zvalues & text & natoms & atoms & atomcoords & zs & shftcoords
        & Ez & _ & _ & _ & _ & Hloop).
  exists zvalues. split; [exact Ez|].
  exact (proj2 (write_structures_trace args natoms atoms shftcoords zvalues 0 w w' Hloop)).
Qed.

Lemma run_reports_progress_witness :
  let args := Scenario.arguments in
  let w := Scenario.used_world in
  let w' := fst (main args w) in
  main args w = (w', Ok tt)
  /\ exists zvalues,
       arange (d_min args) (add (d_max args) (d_step args)) (d_step args) = Ok zvalues
       /\ OS.stdout w' = OS.stdout w ++ progress (outname args) (taken w) 0 zvalues.
Proof.
  intros args w w'.
  assert (E : main args w = (w', Ok tt)) by (vm_compute; reflexivity).
  split; [exact E | exact (run_reports_progress args w w' E)].
Defined.

(** X5: running the script again with the same arguments, the input file
    being what it was, writes the same files again, leaves the files of the
    first run as the backups, and prints a warning for every file. *)
Theorem second_run_backs_up_the_first {R} `{Number R}
    (args : cmd_line_args R) (w w1 w2 : OS.world) :
  main args w = (w1, Ok tt) ->
  OS.files w1 !! inpxyz args = OS.files w !! inpxyz args ->
  main args w1 = (w2, Ok tt) ->
  exists zvalues,
    arange (d_min args) (add (d_max args) (d_step args)) (d_step args) = Ok zvalues
    /\ (forall i, (i < length zvalues)%nat ->
          let newfile := newfile_name (outname args) i in
          is_Some (OS.files w1 !! newfile)
          /\ OS.files w2 !! newfile = OS.files w1 !! newfile
          /\ OS.files w2 !! (newfile ++ ".BAK")%string = OS.files w1 !! newfile)
    /\ OS.stdout w2 = OS.stdout w1 ++ progress (outname args) (fun _ => true) 0 zvalues.
Proof.
  intros E1 Hinp E2.
  destruct (run_moves_what_it_finds args w1 w2 E2) as (zvalues & Ez & Hmoved).
  destruct (run_reports_progress args w1 w2 E2) as (zvalues' & Ez' & Hout).
  rewrite Ez in Ez'. injection Ez' as <-.
  destruct (main_ok args w1 w2 E2)
    as (zvalues' & text' & natoms' & atoms' & atomcoords' & zs' & shftcoords'
        & Ez' & Ht' & Hr' & Hc' & Hs' & Hloop2).
  rewrite Ez in Ez'. injection Ez' as <-.
  apply write_structures_ok in Hloop2 as [Hnew2 _]. cbn [Nat.add] in Hnew2.
  destruct (main_ok args w w1 E1)
    as (zvalues' & text & natoms & atoms & atomcoords & zs & shftcoords
        & Ez' & Ht & Hr & Hc & Hs & Hloop1).
  rewrite Ez in Ez'. injection Ez' as <-.
  rewrite Hinp, Ht in Ht'. injection Ht' as <-.
  rewrite Hr in Hr'. injection Hr' as <- <- <-.
  rewrite Hc in Hc'. injection Hc' as <-.
  rewrite Hs in Hs'. injection Hs' as <-.
  apply write_structures_ok in Hloop1 as [Hnew1 _]. cbn [Nat.add] in Hnew1.
  exists zvalues. split; [exact Ez|].
  split.
  - intros i Hi. cbv zeta.
    destruct (lookup_lt_is_Some_2 zvalues i Hi) as [z Hz].
    pose proof (Hnew1 i z Hz) as H1. pose proof (Hnew2 i z Hz) as H2.
    split; [rewrite H1; eauto | split; [congruence|]].
    rewrite (Hmoved i Hi). now rewrite H1.
  - rewrite Hout. f_equal.
    assert (Hgen : forall zs j,
              (forall k z, zs !! k = Some z ->
                 taken w1 (newfile_name (outname args) (j + k)) = true) ->
              progress (outname args) (taken w1) j zs
              = progress (outname args) (fun _ => true) j zs).
    { clear. induction zs as [|z zs IH]; intros j Hj; [reflexivity|].
      cbn [progress]. pose proof (Hj 0%nat z eq_refl) as H0.
      rewrite Nat.add_0_r in H0. rewrite H0. do 3 f_equal. apply IH.
      intros k z' Hk. replace (S j + k)%nat with (j + S k)%nat by lia.
      now apply (Hj (S k) z'). }
    apply Hgen. intros k z Hk. unfold taken. cbn [Nat.add]. now rewrite (Hnew1 k z Hk).
Qed.

Lemma second_run_backs_up_the_first_witness :
  let args := Scenario.arguments in
  let w := Scenario.world in
  let w1 := fst (main args w) in
  let w2 := fst (main args w1) in
  main args w = (w1, Ok tt)
  /\ OS.files w1 !! inpxyz args = OS.files w !! inpxyz args
  /\ main args w1 = (w2, Ok tt)
  /\ exists zvalues,
       arange (d_min args) (add (d_max args) (d_step args)) (d_step args) = Ok zvalues
       /\ (forall i, (i < length zvalues)%nat ->
             let newfile := newfile_name (outname args) i in
             is_Some (OS.files w1 !! newfile)
             /\ OS.files w2 !! newfile = OS.files w1 !! newfile
             /\ OS.files w2 !! (newfile ++ ".BAK")%string = OS.files w1 !! newfile)
       /\ OS.stdout w2 = OS.stdout w1 ++ progress (outname args) (fun _ => true) 0 zvalues.
Proof.
  intros args w w1 w2.
  assert (E1 : main args w = (w1, Ok tt)) by (vm_compute; reflexivity).
  assert (Hinp : OS.files w1 !! inpxyz args = OS.files w !! inpxyz args)
    by (vm_compute; reflexivity).
  assert (E2 : main args w1 = (w2, Ok tt)) by (vm_compute; reflexivity).
  split; [exact E1 | split; [exact Hinp | split; [exact E2|]]].
  exact (second_run_backs_up_the_first args w w1 w2 E1 Hinp E2).
Defined.

(** ** The parser, line by line *)

Section ParserMore.

Context {R : Type} `{Number R}.

(** The loop never looks beyond the declared number of lines. *)
Lemma read_coords_take (natoms : Z) (lines : list string) :
  forall i : nat,
    read_coords (R := R) natoms i lines
    = read_coords natoms i (take (Z.to_nat (natoms - Z.of_nat i)) lines).
Proof.
  induction lines as [|line rest IH]; intros i.
  - now rewrite take_nil.
  - cbn [read_coords]. destruct (Z.of_nat i + 1 >? natoms)%Z eqn:Hi.
    + replace (Z.to_nat (natoms - Z.of_nat i)) with 0%nat by lia. reflexivity.
    + replace (Z.to_nat (natoms - Z.of_nat i))
        with (S (Z.to_nat (natoms - Z.of_nat (S i)))) by lia.
      cbn [take read_coords]. rewrite Hi.
      destruct (Text.split line) as [|atom tokens]; [reflexivity|].
      destruct (mapM float (take 3 tokens)); [|reflexivity].
      cbn [bind]. now rewrite <- IH.
Qed.

(** It raises at the first line, among the declared ones, that it cannot
    read. *)
Lemma read_coords_raise (natoms : Z) (good : list string) (bad : string)
    (rest : list string) (e : exn) :
  forall i : nat,
    Forall (coordinate_line (R := R)) good ->
    (Z.of_nat (i + length good) < natoms)%Z ->
    match Text.split bad with
    | [] => e = IndexError
    | _ :: tokens => mapM (float (R := R)) (take 3 tokens) = Raise e
    end ->
    read_coords (R := R) natoms i (good ++ bad :: rest) = Raise e.
Proof.
  induction good as [|line good IH]; intros i Hgood Hlen Hbad.
  - cbn [app read_coords]. cbn [length] in Hlen.
    replace (Z.of_nat i + 1 >? natoms)%Z with false by lia.
    destruct (Text.split bad) as [|atom tokens]; [now subst|].
    now rewrite Hbad.
  - cbn [app read_coords]. cbn [length] in Hlen.
    replace (Z.of_nat i + 1 >? natoms)%Z with false by lia.
    inversion Hgood as [|? ? Hline Hrest]; subst.
    destruct Hline as (atom & tokens & coords & Hs & Hm). rewrite Hs, Hm.
    cbn [bind]. rewrite (IH (S i)); [reflexivity | assumption | lia | assumption].
Qed.

End ParserMore.

(** Splitting a string of white space gives no token. *)
Lemma split_blank (s : string) : blank s -> Text.split s = [].
Proof.
  unfold blank, Text.split. induction s as [|c s IH]; intros Hb; [reflexivity|].
  cbn [list_ascii_of_string] in Hb. inversion Hb as [|? ? Hc Hs]; subst.
  cbn [Text.split_acc]. rewrite Hc. now apply IH.
Qed.

(** X6: the parser is positional.  Whatever stands on the second line, and
    whatever follows the declared number of coordinate lines, has no
    influence on what is read. *)
Theorem parser_is_positional {R} `{Number R}
    (first second second' : string) (lines extra : list string) (natoms : Z) :
  declared_count [first] = Some natoms ->
  (natoms <= Z.of_nat (length lines))%Z ->
  read_atoms (R := R) (first :: second :: lines ++ extra)
  = read_atoms (first :: second' :: take (Z.to_nat natoms) lines).
Proof.
  unfold declared_count, read_atoms. intros Hcount Hlen.
  destruct (Literal.int _) as [n|]; [|discriminate]. injection Hcount as ->.
  cbn [bind].
  rewrite (read_coords_take natoms (lines ++ extra) 0).
  rewrite (read_coords_take natoms (take (Z.to_nat natoms) lines) 0).
  replace (natoms - Z.of_nat 0)%Z with natoms by lia.
  rewrite take_take, Nat.min_id, take_app_le by lia. reflexivity.
Qed.

Lemma parser_is_positional_witness :
  declared_count ["2"] = Some 2%Z
  /\ (2 <= Z.of_nat (length ["C 0 0 1"; "C 0 0 2"]))%Z
  /\ read_atoms (R := PrimFloat.float)
       ("2" :: "a comment" :: ["C 0 0 1"; "C 0 0 2"] ++ ["C 0 0 3"; "not an atom"])
     = read_atoms ("2" :: "C 9 9 9" :: take (Z.to_nat 2) ["C 0 0 1"; "C 0 0 2"]).
Proof.
  assert (H1 : declared_count ["2"] = Some 2%Z) by reflexivity.
  assert (H2 : (2 <= Z.of_nat (length ["C 0 0 1"; "C 0 0 2"]))%Z) by (vm_compute; discriminate).
  split; [exact H1 | split; [exact H2|]].
  exact (parser_is_positional "2" "a comment" "C 9 9 9" ["C 0 0 1"; "C 0 0 2"]
           ["C 0 0 3"; "not an atom"] 2 H1 H2).
Defined.

(** X7: a blank line among the declared coordinate lines makes the parser
    raise [IndexError], and a token among the first three after the symbol
    that [float] refuses makes it raise what [float] raises; the lines
    before it must have been read. *)
Theorem parser_raises_at_bad_line {R} `{Number R}
    (first second : string) (good : list string) (bad : string) (rest : list string)
    (natoms : Z) :
  declared_count [first] = Some natoms ->
  Forall (coordinate_line (R := R)) good ->
  (Z.of_nat (length good) < natoms)%Z ->
  (blank bad ->
   read_atoms (R := R) (first :: second :: good ++ bad :: rest) = Raise IndexError)
  /\ (forall atom tokens e,
        Text.split bad = atom :: tokens ->
        mapM (float (R := R)) (take 3 tokens) = Raise e ->
        read_atoms (R := R) (first :: second :: good ++ bad :: rest) = Raise e).
Proof.
  unfold declared_count, read_atoms. intros Hcount Hgood Hlen.
  destruct (Literal.int _) as [n|]; [|discriminate]. injection Hcount as ->.
  cbn [bind]. split.
  - intros Hb.
    rewrite (read_coords_raise natoms good bad rest IndexError 0); try assumption.
    + reflexivity.
    + now rewrite (split_blank bad Hb).
  - intros atom tokens e Hsplit He.
    rewrite (read_coords_raise natoms good bad rest e 0); try assumption.
    + reflexivity.
    + now rewrite Hsplit.
Qed.

Lemma parser_raises_at_bad_line_witness :
  declared_count ["3"] = Some 3%Z
  /\ Forall (coordinate_line (R := PrimFloat.float)) ["C 0 0 1"]
  /\ (Z.of_nat (length ["C 0 0 1"]) < 3)%Z
  /\ (blank "  " ->
      read_atoms (R := PrimFloat.float)
        ("3" :: "comment" :: ["C 0 0 1"] ++ "  " :: ["C 0 0 3"]) = Raise IndexError)
  /\ (forall atom tokens e,
        Text.split "  " = atom :: tokens ->
        mapM (float (R := PrimFloat.float)) (take 3 tokens) = Raise e ->
        read_atoms (R := PrimFloat.float)
          ("3" :: "comment" :: ["C 0 0 1"] ++ "  " :: ["C 0 0 3"]) = Raise e).
Proof.
  assert (H1 : declared_count ["3"] = Some 3%Z) by reflexivity.
  assert (H2 : Forall (coordinate_line (R := PrimFloat.float)) ["C 0 0 1"]).
  { repeat constructor. do 3 eexists. split; vm_compute; reflexivity. }
  assert (H3 : (Z.of_nat (length ["C 0 0 1"]) < 3)%Z) by reflexivity.
  split; [exact H1 | split; [exact H2 | split; [exact H3|]]].
  exact (parser_raises_at_bad_line "3" "comment" ["C 0 0 1"] "  " ["C 0 0 3"] 3 H1 H2 H3).
Defined.

(** ** Inputs that end the run before the loop *)

(** X8: with a declared count of zero or less the parser reads no atom,
    the shift has nothing to average, and the run raises [IndexError]
    having written and printed nothing. *)
Theorem empty_structure_raises {R} `{Number R}
    (args : cmd_line_args R) (w : OS.world) (text : string)
    (zvalues : list R) (natoms : Z) :
  let lines := map Text.strip (Text.readlines text) in
  arange (d_min args) (add (d_max args) (d_step args)) (d_step args) = Ok zvalues ->
  OS.files w !! inpxyz args = Some (OS.File text) ->
  declared_count lines = Some natoms ->
  (2 <= length lines)%nat ->
  (natoms <= 0)%Z ->
  read_atoms (R := R) lines = Ok (natoms, [], [])
  /\ main args w = (w, Raise IndexError).
Proof.
  intros lines Hz Ht Hcount Hlen Hn.
  assert (Hr : read_atoms (R := R) lines = Ok (natoms, [], [])).
  { unfold read_atoms, declared_count in *.
    destruct lines as [|first [|second rest]]; cbn [length] in Hlen; try lia.
    destruct (Literal.int _) as [n|]; [|discriminate]. injection Hcount as ->.
    cbn [bind]. destruct rest as [|line rest]; [reflexivity|].
    cbn [read_coords].
    destruct (Z.gtb_spec (Z.of_nat 0 + 1) natoms); [reflexivity | lia]. }
  split; [exact Hr|].
  unfold main, OS.bind, OS.lift, OS.read_text. rewrite Hz, Ht.
  fold lines. now rewrite Hr.
Qed.

Lemma empty_structure_raises_witness :
  let text := ("0" ++ nl ++ "no atoms" ++ nl ++ "C 0 0 1" ++ nl)%string in
  let w := Scenario.world_with text in
  let args := Scenario.arguments in
  arange (d_min args) (add (d_max args) (d_step args)) (d_step args)
  = Ok [2%float; 3%float; 4%float]
  /\ OS.files w !! inpxyz args = Some (OS.File text)
  /\ declared_count (map Text.strip (Text.readlines text)) = Some 0%Z
  /\ (2 <= length (map Text.strip (Text.readlines text)))%nat
  /\ (0 <= 0)%Z
  /\ read_atoms (R := PrimFloat.float) (map Text.strip (Text.readlines text)) = Ok (0%Z, [], [])
  /\ main args w = (w, Raise IndexError).
Proof.
  intros text w args.
  assert (H1 : arange (d_min args) (add (d_max args) (d_step args)) (d_step args)
               = Ok [2%float; 3%float; 4%float]) by (vm_compute; reflexivity).
  assert (H2 : OS.files w !! inpxyz args = Some (OS.File text)) by reflexivity.
  assert (H3 : declared_count (map Text.strip (Text.readlines text)) = Some 0%Z)
    by reflexivity.
  assert (H4 : (2 <= length (map Text.strip (Text.readlines text)))%nat)
    by (apply Nat.leb_le; vm_compute; reflexivity).
  assert (H5 : (0 <= 0)%Z) by lia.
  split; [exact H1 | split; [exact H2 | split; [exact H3 | split; [exact H4
    | split; [exact H5|]]]]].
  exact (empty_structure_raises args w text _ 0 H1 H2 H3 H4 H5).
Defined.

(** The rows that get through the shift are triples. *)
Lemma shift_coords_triples {R} `{Number R}
    (shift : R) (atomcoords : list (list R)) shftcoords :
  shift_coords shift atomcoords = Ok shftcoords ->
  Forall (fun row => length row = 3%nat) atomcoords.
Proof.
  unfold shift_coords. revert shftcoords.
  induction atomcoords as [|row rows IH]; intros sh Hs; [constructor|].
  cbn [mapM] in Hs.
  destruct row as [|x [|y [|z [|? ?]]]]; try discriminate.
  cbn [bind] in Hs. destruct (mapM _ rows) as [sh'|] eqn:E; [|discriminate].
  constructor; [reflexivity | exact (IH sh' eq_refl)].
Qed.

Lemma mapM_raise {A B} (f : A -> result B) (l : list A) (e : exn) :
  mapM f l = Raise e -> exists a, In a l /\ f a = Raise e.
Proof.
  induction l as [|a l IH]; cbn [mapM]; [discriminate|].
  destruct (f a) as [b|e'] eqn:Ea.
  - cbn [bind]. destruct (mapM f l) as [bs|e'']; [discriminate|].
    cbn [bind]. intros [= ->]. destruct (IH eq_refl) as (a' & Hin & Ha').
    exists a'. split; [now right | exact Ha'].
  - cbn [bind]. intros [= ->]. exists a. split; [now left | exact Ea].
Qed.

(** X9: the parser accepts a coordinate line with fewer than three
    numbers, but the run does not survive it: it raises [IndexError] or
    [ValueError] before the loop, having written and printed nothing. *)
Theorem short_row_raises {R} `{Number R}
    (args : cmd_line_args R) (w : OS.world) (text : string)
    (zvalues : list R) natoms atoms (atomcoords : list (list R)) :
  arange (d_min args) (add (d_max args) (d_step args)) (d_step args) = Ok zvalues ->
  OS.files w !! inpxyz args = Some (OS.File text) ->
  read_atoms (map Text.strip (Text.readlines text)) = Ok (natoms, atoms, atomcoords) ->
  Exists (fun row => length row <> 3%nat) atomcoords ->
  main args w = (w, Raise IndexError) \/ main args w = (w, Raise ValueError).
Proof.
  intros Hz Ht Hr Hshort.
  unfold main, OS.bind, OS.lift, OS.read_text. rewrite Hz, Ht, Hr.
  destruct (last_column atomcoords) as [zs|e] eqn:Hc.
  - destruct (shift_coords (mean zs) atomcoords) as [sh|e] eqn:Hs.
    + apply shift_coords_triples in Hs. rewrite Forall_forall in Hs.
      apply Exists_exists in Hshort as (row & Hin & Hlen).
      now destruct (Hlen (Hs row Hin)).
    + right. unfold shift_coords in Hs.
      apply mapM_raise in Hs as (row & _ & Hrow).
      destruct row as [|x [|y [|z [|? ?]]]];
        first [discriminate | now injection Hrow as <-].
  - unfold last_column in Hc. destruct atomcoords as [|r rows]; [left; congruence|].
    destruct (forallb _ _); [|right; congruence].
    apply mapM_raise in Hc as (row & _ & Hrow).
    destruct (last row); [discriminate|]. left. congruence.
Qed.

Lemma short_row_raises_witness :
  let text := ("2" ++ nl ++ "two atoms" ++ nl ++ "C 0 0 1" ++ nl ++ "C 0 2" ++ nl)%string in
  let w := Scenario.world_with text in
  let args := Scenario.arguments in
  arange (d_min args) (add (d_max args) (d_step args)) (d_step args)
  = Ok [2%float; 3%float; 4%float]
  /\ OS.files w !! inpxyz args = Some (OS.File text)
  /\ read_atoms (map Text.strip (Text.readlines text))
     = Ok (2%Z, ["C"; "C"], [[0%float; 0%float; 1%float]; [0%float; 2%float]])
  /\ Exists (fun row : list PrimFloat.float => length row <> 3%nat)
       [[0%float; 0%float; 1%float]; [0%float; 2%float]]
  /\ (main args w = (w, Raise IndexError) \/ main args w = (w, Raise ValueError)).
Proof.
  intros text w args.
  assert (H1 : arange (d_min args) (add (d_max args) (d_step args)) (d_step args)
               = Ok [2%float; 3%float; 4%float]) by (vm_compute; reflexivity).
  assert (H2 : OS.files w !! inpxyz args = Some (OS.File text)) by reflexivity.
  assert (H3 : read_atoms (map Text.strip (Text.readlines text))
               = Ok (2%Z, ["C"; "C"], [[0%float; 0%float; 1%float]; [0%float; 2%float]]))
    by (vm_compute; reflexivity).
  assert (H4 : Exists (fun row : list PrimFloat.float => length row <> 3%nat)
                 [[0%float; 0%float; 1%float]; [0%float; 2%float]]).
  { apply Exists_cons_tl, Exists_cons_hd. cbn [length]. lia. }
  split; [exact H1 | split; [exact H2 | split; [exact H3 | split; [exact H4|]]]].
  exact (short_row_raises args w text _ _ _ _ H1 H2 H3 H4).
Defined.

(** ** The height sequence and the shift in exact arithmetic, continued *)

Lemma inject_Z_pred (a : Z) : (inject_Z (a - 1) == inject_Z a - 1)%Q.
Proof.
  unfold Z.sub. rewrite inject_Z_plus, inject_Z_opp.
  change (inject_Z 1) with 1%Q. ring.
Qed.

(** X10: in exact arithmetic, with a positive step and [d_min <= d_max],
    the scan reaches [d_max]: the sequence is not empty, every height but
    the last is below [d_max], and the last is at or above [d_max] and
    below [d_max + d_step]. *)
Theorem scan_reaches_d_max (d_min d_max d_step : Q) :
  (0 < d_step)%Q ->
  (d_min <= d_max)%Q ->
  exists zvalues n z,
    arange d_min (add d_max d_step) d_step = Ok zvalues
    /\ length zvalues = S n
    /\ zvalues !! n = Some z
    /\ (d_max <= z)%Q /\ (z < d_max + d_step)%Q
    /\ forall i z', (i < n)%nat -> zvalues !! i = Some z' -> (z' < d_max)%Q.
Proof.
  intros Hs Hle.
  assert (Hne : ~ (d_step == 0)%Q) by (intros E; rewrite E in Hs; now apply Qlt_irrefl in Hs).
  set (q := ((add d_max d_step - d_min) / d_step)%Q).
  assert (Hq : (q * d_step == d_max + d_step - d_min)%Q)
    by (unfold q; simpl add; field; exact Hne).
  assert (Hq1 : (1 <= q)%Q).
  { apply Qmult_le_r with d_step; [assumption|]. rewrite Hq. lra. }
  pose proof (Qle_ceiling q) as Hc1. pose proof (Qceiling_lt q) as Hc2.
  assert (Hpos : (1 <= Qceiling q)%Z).
  { rewrite Zle_Qle. eapply Qle_trans; eassumption. }
  set (n := Z.to_nat (Qceiling q - 1)).
  assert (Hn : Z.to_nat (Qceiling q) = S n) by (unfold n; lia).
  assert (Hitem : forall i z, (i < S n)%nat ->
            map (arange_item d_min d_step) (seq 0 (S n)) !! i = Some z ->
            (z == d_min + inject_Z (Z.of_nat i) * d_step)%Q).
  { intros i z Hi Hz. rewrite list_lookup_fmap, lookup_seq_lt in Hz by assumption.
    injection Hz as <-. apply ExactFacts.arange_item_exact. }
  exists (map (arange_item d_min d_step) (seq 0 (S n))), n,
    (arange_item d_min d_step n).
  split; [rewrite ExactFacts.arange_exact by assumption; fold q; now rewrite Hn|].
  split; [now rewrite length_map, length_seq|].
  split; [rewrite list_lookup_fmap, lookup_seq_lt by lia; reflexivity|].
  assert (Hnq : (inject_Z (Z.of_nat n) == inject_Z (Qceiling q) - 1)%Q).
  { unfold n. rewrite Z2Nat.id by lia. apply inject_Z_pred. }
  assert (Hlo : (q - 1 <= inject_Z (Z.of_nat n))%Q) by (rewrite Hnq; lra).
  assert (Hhi : (inject_Z (Z.of_nat n) < q)%Q).
  { rewrite Hnq. rewrite inject_Z_pred in Hc2. lra. }
  rewrite ExactFacts.arange_item_exact. pose proof Hhi as Hhi0.
  apply (Qmult_le_r _ _ d_step) in Hlo; [|assumption].
  apply (Qmult_lt_r _ _ d_step) in Hhi; [|assumption].
  split; [|split].
  - lra.
  - lra.
  - intros i z' Hi Hz. rewrite (Hitem i z' ltac:(lia) Hz).
    assert (Hin : (inject_Z (Z.of_nat i) <= inject_Z (Z.of_nat n) - 1)%Q).
    { rewrite <- inject_Z_pred, <- Zle_Qle. lia. }
    assert (Hlt : (inject_Z (Z.of_nat i) < q - 1)%Q) by lra.
    apply (Qmult_lt_r _ _ d_step) in Hlt; [|assumption]. lra.
Qed.

Lemma scan_reaches_d_max_witness :
  (0 < 3 # 10)%Q /\ (1 <= 2)%Q
  /\ exists zvalues n z,
       arange 1%Q (add 2%Q (3 # 10)%Q) (3 # 10)%Q = Ok zvalues
       /\ length zvalues = S n
       /\ zvalues !! n = Some z
       /\ (2 <= z)%Q /\ (z < 2 + (3 # 10))%Q
       /\ forall i z', (i < n)%nat -> zvalues !! i = Some z' -> (z' < 2)%Q.
Proof.
  assert (H1 : (0 < 3 # 10)%Q) by reflexivity.
  assert (H2 : (1 <= 2)%Q) by discriminate.
  split; [exact H1 | split; [exact H2|]].
  exact (scan_reaches_d_max 1 2 (3 # 10) H1 H2).
Defined.

(** X11: a negative step gives no descending scan.  In exact arithmetic,
    with [d_step < 0] and [d_min <= d_max], the sequence is [d_min] alone
    when [d_max - d_min] is smaller than the size of the step, and empty
    otherwise. *)
Theorem negative_step_gives_at_most_one_height (d_min d_max d_step : Q) :
  (d_step < 0)%Q ->
  (d_min <= d_max)%Q ->
  ((d_max - d_min < - d_step)%Q ->
   arange d_min (add d_max d_step) d_step = Ok [d_min])
  /\ ((- d_step <= d_max - d_min)%Q ->
      arange d_min (add d_max d_step) d_step = Ok []).
Proof.
  intros Hs Hle.
  assert (Hne : ~ (d_step == 0)%Q) by (intros E; rewrite E in Hs; now apply Qlt_irrefl in Hs).
  assert (Hz : is_zero d_step = false).
  { simpl. destruct (Qeq_bool d_step 0) eqn:E; [|reflexivity].
    apply Qeq_bool_eq in E. now destruct Hne. }
  set (q := ((d_max + d_step - d_min) / d_step)%Q).
  assert (Hq : (q * (- d_step) == d_min - d_max - d_step)%Q)
    by (unfold q; field; exact Hne).
  assert (Hpos : (0 < - d_step)%Q) by lra.
  assert (Hq1 : (q <= 1)%Q).
  { apply Qmult_le_r with (- d_step)%Q; [assumption|]. rewrite Hq. lra. }
  unfold arange. rewrite Hz.
  change (ceil (div (sub (add d_max d_step) d_min) d_step)) with (Ok (A := Z) (Qceiling q)).
  cbn [bind]. split; intros Hcmp.
  - replace (Qceiling q) with 1%Z; [reflexivity|].
    symmetry. apply ExactFacts.Qceiling_unique.
    + change (inject_Z (1 - 1)) with 0%Q.
      apply Qmult_lt_r with (- d_step)%Q; [assumption|]. rewrite Hq. lra.
    + exact Hq1.
  - assert (Hq0 : (q <= 0)%Q).
    { apply Qmult_le_r with (- d_step)%Q; [assumption|]. rewrite Hq. lra. }
    assert (Hc : (Qceiling q <= 0)%Z).
    { change 0%Z with (Qceiling 0). now apply Qceiling_resp_le. }
    now replace (Z.to_nat (Qceiling q)) with 0%nat by lia.
Qed.

Lemma negative_step_gives_at_most_one_height_witness :
  (-1 < 0)%Q /\ (2 <= 4)%Q
  /\ ((4 - 2 < - -1)%Q -> arange 2%Q (add 4%Q (-1)%Q) (-1)%Q = Ok [2%Q])
  /\ ((- -1 <= 4 - 2)%Q -> arange 2%Q (add 4%Q (-1)%Q) (-1)%Q = Ok []).
Proof.
  assert (H1 : (-1 < 0)%Q) by reflexivity.
  assert (H2 : (2 <= 4)%Q) by discriminate.
  split; [exact H1 | split; [exact H2|]].
  exact (negative_step_gives_at_most_one_height 2 4 (-1) H1 H2).
Defined.

Lemma Qsum_translated (c : Q) (l : list Q) :
  (Qsum (map (fun z => z + c) l) == Qsum l + inject_Z (Z.of_nat (length l)) * c)%Q.
Proof.
  induction l as [|x l IH].
  - simpl. change (inject_Z 0) with 0%Q. ring.
  - cbn [map Qsum fold_right length]. fold (Qsum (map (fun z => (z + c)%Q) l)).
    fold (Qsum l). rewrite IH, Nat2Z.inj_succ. unfold Z.succ.
    rewrite inject_Z_plus. change (inject_Z 1) with 1%Q. ring.
Qed.

(** X12: only relative heights matter.  In exact arithmetic, moving every
    atom of a structure by the same amount along z moves the shift by that
    amount and leaves the shifted structure as it is. *)
Theorem shift_forgets_the_origin (coords : list (Q * Q * Q)) (c : Q) :
  coords <> [] ->
  let moved := map (fun '(x, y, z) => (x, y, (z + c)%Q)) coords in
  (mean (map z_of moved) == mean (map z_of coords) + c)%Q
  /\ exists shifted shifted',
       shift_coords (mean (map z_of coords)) (map row_of coords) = Ok shifted
       /\ shift_coords (mean (map z_of moved)) (map row_of moved) = Ok shifted'
       /\ Forall2 (fun a b => fst a = fst b /\ (snd a == snd b)%Q) shifted shifted'.
Proof.
  intros Hne moved.
  assert (Hn : ~ (inject_Z (Z.of_nat (length coords)) == 0)%Q).
  { destruct coords; [congruence|]. cbn [length]. rewrite Nat2Z.inj_succ. unfold Z.succ.
    change 0%Q with (inject_Z 0). rewrite inject_Z_injective. lia. }
  assert (Hmean : (mean (map z_of moved) == mean (map z_of coords) + c)%Q).
  { rewrite !ShiftFacts.mean_exact.
    assert (Hz : map z_of moved = map (fun z => (z + c)%Q) (map z_of coords)).
    { unfold moved. rewrite !map_map. apply map_ext. now intros [[x y] z]. }
    rewrite Hz, Qsum_translated, !length_map. field. exact Hn. }
  split; [exact Hmean|].
  do 2 eexists.
  split; [exact (ShiftFacts.shift_coords_rows _ coords)|].
  split; [exact (ShiftFacts.shift_coords_rows _ moved)|].
  generalize dependent (mean (map z_of moved)). generalize (mean (map z_of coords)).
  intros m m' Hm. unfold moved. clear -Hm.
  induction coords as [|[[x y] z] l IH]; [constructor|].
  cbn [map]. constructor; [|exact IH].
  split; [reflexivity|]. cbn [snd]. simpl sub. rewrite Hm. ring.
Qed.

Lemma shift_forgets_the_origin_witness :
  let coords := [(0, 0, 1); (3 # 2, 0, 2); (0, 3 # 2, 3)]%Q in
  let moved := map (fun '(x, y, z) => (x, y, (z + 10)%Q)) coords in
  coords <> []
  /\ (mean (map z_of moved) == mean (map z_of coords) + 10)%Q
  /\ exists shifted shifted',
       shift_coords (mean (map z_of coords)) (map row_of coords) = Ok shifted
       /\ shift_coords (mean (map z_of moved)) (map row_of moved) = Ok shifted'
       /\ Forall2 (fun a b => fst a = fst b /\ (snd a == snd b)%Q) shifted shifted'.
Proof.
  intros coords moved.
  assert (Hne : coords <> []) by discriminate.
  split; [exact Hne|].
  exact (shift_forgets_the_origin coords 10 Hne).
Defined.

(** ** The count line *)

Lemma before_no_sep (sep : ascii) (s t : string) :
  Forall (fun c => c <> sep) (list_ascii_of_string s) ->
  Text.before sep (s ++ String sep t) = s /\ Text.before sep s = s.
Proof.
  induction s as [|c s IH]; intros Hs.
  - change (EmptyString ++ String sep t)%string with (String sep t).
    cbn [Text.before]. now rewrite Ascii.eqb_refl.
  - cbn [list_ascii_of_string] in Hs. inversion Hs as [|? ? Hc Hs']; subst.
    rewrite StringFacts.append_cons. cbn [Text.before].
    destruct (Ascii.eqb_spec c sep) as [->|_]; [congruence|].
    destruct (IH Hs') as [-> ->]. now split.
Qed.

(** X13: what follows the first [#] on the count line is a comment: it
    never changes the count that is read, whatever it says. *)
Theorem count_line_comment_is_ignored (count note : string) (rest : list string) :
  Forall (fun c => c <> "#"%char) (list_ascii_of_string count) ->
  declared_count ((count ++ String "#" note)%string :: rest) = declared_count (count :: rest).
Proof.
  intros Hc. unfold declared_count.
  now destruct (before_no_sep "#" count note Hc) as [-> ->].
Qed.

Lemma count_line_comment_is_ignored_witness :
  Forall (fun c => c <> "#"%char) (list_ascii_of_string "12  ")
  /\ declared_count (("12  " ++ String "#" " 7 atoms # really")%string :: ["x"])
     = declared_count ("12  " :: ["x"]).
Proof.
  assert (H : Forall (fun c => c <> "#"%char) (list_ascii_of_string "12  "))
    by (repeat constructor; discriminate).
  split; [exact H|].
  exact (count_line_comment_is_ignored "12  " " 7 atoms # really" ["x"] H).
Defined.

(** ** Reading back what was written *)

Module RoundTrip.

Import StringFacts.

Lemma digits_from_spec (s rest : string) :
  forall (acc : Z) (n : nat),
    digit_string s -> ends_digits rest ->
    Literal.digits_from acc n (s ++ rest)
    = (string_value acc s, (n + String.length s)%nat, rest).
Proof.
  unfold digit_string. induction s as [|c s IH]; intros acc n Hs Hrest.
  - change (EmptyString ++ rest)%string with rest. cbn [string_value String.length].
    rewrite Nat.add_0_r. destruct rest as [|c rest]; [reflexivity|].
    destruct Hrest as [Hd Hu]. cbn [Literal.digits_from]. rewrite Hd.
    destruct (Ascii.eqb_spec c "_"); [congruence | reflexivity].
  - cbn [list_ascii_of_string] in Hs. inversion Hs as [|? ? Hc Hs']; subst.
    rewrite append_cons. cbn [Literal.digits_from string_value String.length].
    destruct (Literal.digit_of c) as [d|]; [|congruence].
    rewrite (IH _ (S n) Hs' Hrest). f_equal. f_equal. lia.
Qed.

Lemma digitpart_spec (s rest : string) (acc : Z) (n : nat) :
  s <> EmptyString -> digit_string s -> ends_digits rest ->
  Literal.digitpart acc n (s ++ rest)
  = Some (string_value acc s, (n + String.length s)%nat, rest).
Proof.
  intros Hne Hs Hrest. destruct s as [|c s]; [congruence|].
  pose proof (digits_from_spec (String c s) rest acc n Hs Hrest) as E.
  rewrite append_cons in *. cbn [Literal.digits_from Literal.digitpart] in *.
  unfold digit_string in Hs. cbn [list_ascii_of_string] in Hs.
  apply Forall_inv in Hs.
  destruct (Literal.digit_of c); [now rewrite E | congruence].
Qed.

(** The digits that the library writes for a number in [uint]. *)
Lemma string_of_uint_digits (d : Decimal.uint) :
  digit_string (NilEmpty.string_of_uint d).
Proof.
  unfold digit_string.
  induction d; cbn [NilEmpty.string_of_uint list_ascii_of_string];
    constructor; (discriminate || assumption).
Qed.

Lemma string_value_of_uint_acc (d : Decimal.uint) :
  forall p : positive,
    string_value (Zpos p) (NilEmpty.string_of_uint d) = Zpos (Pos.of_uint_acc d p).
Proof.
  induction d; intros p; cbn [NilEmpty.string_of_uint string_value Pos.of_uint_acc];
    try reflexivity;
    match goal with
    | |- context [Literal.digit_of ?c] =>
        let v := eval vm_compute in (Literal.digit_of c) in
        change (Literal.digit_of c) with v
    end;
    cbv beta iota; rewrite <- IHd; f_equal; lia.
Qed.

Lemma string_value_of_uint (d : Decimal.uint) :
  string_value 0 (NilEmpty.string_of_uint d) = Z.of_N (Pos.of_uint d).
Proof.
  induction d; cbn [NilEmpty.string_of_uint string_value Pos.of_uint];
    try reflexivity;
    match goal with
    | |- context [Literal.digit_of ?c] =>
        let v := eval vm_compute in (Literal.digit_of c) in
        change (Literal.digit_of c) with v
    end;
    cbv beta iota;
    first [ exact IHd
          | change (10 * 0 + ?k)%Z with k; rewrite string_value_of_uint_acc; reflexivity ].
Qed.

Lemma string_of_uint_nonnil (d : Decimal.uint) :
  d <> Decimal.Nil -> NilZero.string_of_uint d = NilEmpty.string_of_uint d.
Proof. now destruct d. Qed.

Lemma decimal_pos (p : positive) :
  Format.decimal (Zpos p) = NilEmpty.string_of_uint (Pos.to_uint p).
Proof.
  unfold Format.decimal. cbn [Z.to_int NilZero.string_of_int].
  apply string_of_uint_nonnil, Unsigned.to_uint_nonnil.
Qed.

Lemma decimal_neg (p : positive) :
  Format.decimal (Zneg p) = String "-" (NilEmpty.string_of_uint (Pos.to_uint p)).
Proof.
  unfold Format.decimal. cbn [Z.to_int NilZero.string_of_int]. f_equal.
  apply string_of_uint_nonnil, Unsigned.to_uint_nonnil.
Qed.

Lemma string_of_uint_nonempty (d : Decimal.uint) :
  d <> Decimal.Nil -> NilEmpty.string_of_uint d <> EmptyString.
Proof. now destruct d. Qed.

(** The decimal digits of a number that is not negative, and their value. *)
Lemma decimal_nonneg (z : Z) :
  (0 <= z)%Z ->
  Format.decimal z <> EmptyString
  /\ digit_string (Format.decimal z)
  /\ string_value 0 (Format.decimal z) = z.
Proof.
  intros Hz. destruct z as [|p|p]; [| |lia].
  - split; [discriminate | split; [|reflexivity]].
    repeat constructor. discriminate.
  - rewrite decimal_pos.
    split; [apply string_of_uint_nonempty, Unsigned.to_uint_nonnil|].
    split; [apply string_of_uint_digits|].
    now rewrite string_value_of_uint, Unsigned.of_to.
Qed.

Lemma string_value_append (s t : string) :
  forall acc, digit_string s -> string_value acc (s ++ t) = string_value (string_value acc s) t.
Proof.
  unfold digit_string. induction s as [|c s IH]; intros acc Hs; [reflexivity|].
  cbn [list_ascii_of_string] in Hs. inversion Hs as [|? ? Hc Hs']; subst.
  rewrite append_cons. cbn [string_value].
  destruct (Literal.digit_of c); [now apply IH | congruence].
Qed.

Lemma digit_of_range (c : ascii) (d : Z) :
  Literal.digit_of c = Some d -> (0 <= d <= 9)%Z.
Proof.
  unfold Literal.digit_of.
  destruct (_ && _)%bool eqn:E; [|discriminate]. intros [= <-].
  apply andb_prop in E as [E1 E2].
  apply Nat.leb_le in E1. apply Nat.leb_le in E2. lia.
Qed.

(** The value of [n] digits continues [acc] within [10^n]. *)
Lemma string_value_bounds (s : string) :
  forall acc,
    digit_string s -> (0 <= acc)%Z ->
    (acc * 10 ^ Z.of_nat (String.length s) <= string_value acc s
     < (acc + 1) * 10 ^ Z.of_nat (String.length s))%Z.
Proof.
  unfold digit_string. induction s as [|c s IH]; intros acc Hs Hacc.
  - cbn [String.length string_value]. change (10 ^ Z.of_nat 0)%Z with 1%Z. lia.
  - cbn [list_ascii_of_string] in Hs. inversion Hs as [|? ? Hc Hs']; subst.
    cbn [String.length string_value].
    destruct (Literal.digit_of c) as [d|] eqn:Ed; [|congruence].
    pose proof (digit_of_range c d Ed) as Hd.
    specialize (IH (10 * acc + d)%Z Hs' ltac:(lia)).
    rewrite Nat2Z.inj_succ, Z.pow_succ_r by lia.
    assert (Hp : (0 < 10 ^ Z.of_nat (String.length s))%Z) by (apply Z.pow_pos_nonneg; lia).
    nia.
Qed.

(** The digits of a positive number do not start with a zero. *)
Lemma to_uint_head (p : positive) :
  match Pos.to_uint p with
  | Decimal.Nil | Decimal.D0 _ => False
  | _ => True
  end.
Proof.
  pose proof (Unsigned.to_of (Pos.to_uint p)) as Hn.
  rewrite Unsigned.of_to in Hn. cbn [N.to_uint] in Hn.
  pose proof (Unsigned.to_uint_nonzero p) as Hz.
  destruct (Pos.to_uint p) as [|l| | | | | | | | |] eqn:E; try exact I.
  - now apply (Unsigned.to_uint_nonnil p).
  - rewrite DecimalFacts.unorm_D0 in Hn. unfold Decimal.unorm in Hn.
    pose proof (DecimalFacts.nzhead_nonzero l) as Hh.
    destruct (Decimal.nzhead l) eqn:El; try discriminate.
    + injection Hn as ->. now apply Hz.
    + now apply (Hh u).
Qed.

(** A number below [10^k] is written with at most [k] digits. *)
Lemma decimal_length (z : Z) (k : nat) :
  (0 <= z < 10 ^ Z.of_nat k)%Z -> (1 <= k)%nat ->
  (String.length (Format.decimal z) <= k)%nat.
Proof.
  intros Hz Hk. destruct z as [|p|p]; [exact Hk | | lia].
  rewrite decimal_pos.
  pose proof (to_uint_head p) as Hhead.
  pose proof (string_of_uint_digits (Pos.to_uint p)) as Hd.
  pose proof (string_value_of_uint (Pos.to_uint p)) as Hv.
  rewrite Unsigned.of_to in Hv. cbn [Z.of_N] in Hv.
  destruct (NilEmpty.string_of_uint (Pos.to_uint p)) as [|c s] eqn:Es.
  - cbn [String.length]. lia.
  - unfold digit_string in Hd. cbn [list_ascii_of_string] in Hd.
    inversion Hd as [|? ? Hc Hs]; subst.
    cbn [string_value] in Hv.
    destruct (Literal.digit_of c) as [d|] eqn:Ed; [|congruence].
    assert (Hd1 : (1 <= d)%Z).
    { pose proof (digit_of_range c d Ed) as Hr.
      destruct (Z.eq_dec d 0%Z) as [->|]; [|lia]. exfalso.
      destruct (Pos.to_uint p); cbn [NilEmpty.string_of_uint] in Es;
        try discriminate; try contradiction;
        injection Es as <- _; vm_compute in Ed; discriminate. }
    change (10 * 0 + d)%Z with d in Hv.
    pose proof (string_value_bounds s d Hs ltac:(lia)) as [Hlo _].
    rewrite Hv in Hlo. cbn [String.length].
    assert (Hlt : (10 ^ Z.of_nat (String.length s) < 10 ^ Z.of_nat k)%Z).
    { assert (0 < 10 ^ Z.of_nat (String.length s))%Z by (apply Z.pow_pos_nonneg; lia).
      nia. }
    apply Z.pow_lt_mono_r_iff in Hlt; lia.
Qed.

Lemma digit_is_solid (c : ascii) :
  Literal.digit_of c <> None -> Text.is_space c = false /\ c <> "#"%char.
Proof.
  destruct c as [[] [] [] [] [] [] [] []]; vm_compute; intros Hd;
    try (now destruct Hd); split; (reflexivity || discriminate).
Qed.

Lemma digit_string_solid (s : string) : digit_string s -> solid s.
Proof.
  unfold digit_string, solid. intros Hs. eapply Forall_impl; [exact Hs|].
  intros c Hc. now apply digit_is_solid.
Qed.

Lemma lstrip_solid_string (s : string) : solid s -> Text.lstrip s = s.
Proof.
  unfold solid. destruct s as [|c s]; [reflexivity|].
  cbn [list_ascii_of_string Text.lstrip]. intros Hs. apply Forall_inv in Hs. now rewrite Hs.
Qed.

Lemma rstrip_solid_string (s : string) : solid s -> Text.rstrip s = s.
Proof.
  unfold solid. induction s as [|c s IH]; [reflexivity|].
  cbn [list_ascii_of_string Text.rstrip]. intros Hs.
  inversion Hs as [|? ? Hc Hs']; subst. rewrite (IH Hs'), Hc. now destruct s.
Qed.

Lemma blank_spaces (n : nat) : blank (Text.repeat_char " " n).
Proof. unfold blank. induction n; cbn; constructor; (reflexivity || assumption). Qed.

(** Stripping takes the padding off a padded field. *)
Lemma strip_padded (n : nat) (s : string) :
  solid s -> Text.strip (Text.repeat_char " " n ++ s) = s.
Proof.
  intros Hs. unfold Text.strip.
  rewrite ArgFile.lstrip_blank_append by apply blank_spaces.
  now rewrite lstrip_solid_string, rstrip_solid_string.
Qed.

Lemma strip_solid (s : string) : solid s -> Text.strip s = s.
Proof. intros Hs. exact (strip_padded 0 s Hs). Qed.

Lemma sign_digit (c : ascii) (s : string) :
  Literal.digit_of c <> None -> Literal.sign (String c s) = (false, String c s).
Proof.
  destruct c as [[] [] [] [] [] [] [] []]; vm_compute; intros Hd;
    try (now destruct Hd); reflexivity.
Qed.

(** [int] reads a number back from its decimal digits. *)
Lemma int_decimal (z : Z) : Literal.int (Format.decimal z) = Ok z.
Proof.
  unfold Literal.int. destruct z as [|p|p].
  - reflexivity.
  - destruct (decimal_nonneg (Zpos p) ltac:(lia)) as (Hne & Hd & Hv).
    rewrite strip_solid by now apply digit_string_solid.
    destruct (Format.decimal (Zpos p)) as [|c s] eqn:E; [congruence|].
    rewrite sign_digit by (apply (Forall_inv Hd)).
    rewrite <- (append_nil_r (String c s)).
    rewrite (digitpart_spec (String c s) EmptyString 0 0); [|congruence|exact Hd|exact I].
    now rewrite Hv.
  - rewrite decimal_neg.
    pose proof (string_of_uint_digits (Pos.to_uint p)) as Hd.
    pose proof (string_value_of_uint (Pos.to_uint p)) as Hv.
    rewrite Unsigned.of_to in Hv. cbn [Z.of_N] in Hv.
    rewrite strip_solid.
    + cbn [Literal.sign].
      rewrite <- (append_nil_r (NilEmpty.string_of_uint (Pos.to_uint p))).
      rewrite digitpart_spec;
        [| apply string_of_uint_nonempty, Unsigned.to_uint_nonnil | exact Hd | exact I].
      now rewrite Hv.
    + unfold solid. cbn [list_ascii_of_string]. constructor; [reflexivity|].
      now apply digit_string_solid.
Qed.

Lemma decimal_no_hash (z : Z) :
  Forall (fun c => c <> "#"%char) (list_ascii_of_string (Format.decimal z)).
Proof.
  assert (Hu : forall d, Forall (fun c => c <> "#"%char)
                           (list_ascii_of_string (NilEmpty.string_of_uint d))).
  { intros d. pose proof (string_of_uint_digits d) as Hd.
    eapply Forall_impl; [exact Hd|]. intros c Hc. now apply digit_is_solid. }
  destruct z as [|p|p].
  - repeat constructor. discriminate.
  - rewrite decimal_pos. apply Hu.
  - rewrite decimal_neg. cbn [list_ascii_of_string]. constructor; [discriminate | apply Hu].
Qed.

Lemma decimal_solid (z : Z) : solid (Format.decimal z).
Proof.
  destruct z as [|p|p].
  - repeat constructor.
  - rewrite decimal_pos. apply digit_string_solid, string_of_uint_digits.
  - rewrite decimal_neg. unfold solid. cbn [list_ascii_of_string].
    constructor; [reflexivity | apply digit_string_solid, string_of_uint_digits].
Qed.

End RoundTrip.

(** X14: the count line that the script writes is one that it reads: the
    parser finds in [{:>4d}] of any integer that integer as the declared
    count. *)
Theorem count_line_round_trip (z : Z) (rest : list string) :
  declared_count (Format.int_right4 z :: rest) = Some z.
Proof.
  unfold declared_count, Format.int_right4, Text.rjust.
  assert (Hb : Text.before "#" (Text.repeat_char " " (4 - String.length (Format.decimal z))
                               ++ Format.decimal z)
               = (Text.repeat_char " " (4 - String.length (Format.decimal z))
                  ++ Format.decimal z)%string).
  { apply before_no_sep with (t := EmptyString).
    rewrite StringFacts.chars_append. apply Forall_app. split.
    - generalize (4 - String.length (Format.decimal z))%nat.
      induction n; cbn; constructor; (discriminate || assumption).
    - apply RoundTrip.decimal_no_hash. }
  rewrite Hb, RoundTrip.strip_padded by apply RoundTrip.decimal_solid.
  now rewrite RoundTrip.int_decimal.
Qed.

Module FieldFacts.

Import StringFacts RoundTrip.

Lemma round_half_even_nonneg (q : Q) : (0 <= q)%Q -> (0 <= Format.round_half_even q)%Z.
Proof.
  intros Hq. unfold Format.round_half_even.
  assert (Hn : (0 <= Qnum q)%Z).
  { unfold Qle in Hq. simpl in Hq. lia. }
  pose proof (Z.div_eucl_eq (Qnum q) (Zpos (Qden q)) ltac:(lia)) as Heq.
  pose proof (Z.mod_pos_bound (Qnum q) (Zpos (Qden q)) ltac:(lia)) as Hr.
  pose proof (Z.div_pos (Qnum q) (Zpos (Qden q)) Hn ltac:(lia)) as Hk.
  unfold Z.modulo, Z.div in *.
  destruct (Z.div_eucl (Qnum q) (Zpos (Qden q))) as [k r]. cbn [fst snd] in *.
  destruct (2 * r ?= Zpos (Qden q))%Z; [destruct (Z.even k)| |]; lia.
Qed.

(** Rounding to the nearest integer moves a number by a half at most. *)
Lemma round_half_even_error (q : Q) :
  (Qabs (inject_Z (Format.round_half_even q) - q) <= 1 # 2)%Q.
Proof.
  unfold Format.round_half_even.
  pose proof (Z.div_eucl_eq (Qnum q) (Zpos (Qden q)) ltac:(lia)) as Heq.
  pose proof (Z.mod_pos_bound (Qnum q) (Zpos (Qden q)) ltac:(lia)) as Hr.
  unfold Z.modulo in *.
  destruct (Z.div_eucl (Qnum q) (Zpos (Qden q))) as [k r]. cbv beta iota in Heq, Hr.
  assert (Hcase : forall z : Z,
            (- Zpos (Qden q) <= 2 * (z * Zpos (Qden q) - Qnum q) <= Zpos (Qden q))%Z ->
            (Qabs (inject_Z z - q) <= 1 # 2)%Q).
  { intros z Hz. apply Qabs_Qle_condition. destruct q as [n d]. cbn [Qnum Qden] in *.
    unfold Qle, Qminus, Qplus, Qopp, inject_Z. cbn [Qnum Qden]. split; lia. }
  destruct (2 * r ?= Zpos (Qden q))%Z eqn:Ec.
  - apply Z.compare_eq in Ec. destruct (Z.even k); apply Hcase; lia.
  - rewrite Z.compare_lt_iff in Ec. apply Hcase. lia.
  - rewrite Z.compare_gt_iff in Ec. apply Hcase. lia.
Qed.

Lemma string_value_zeros (n : nat) (s : string) :
  string_value 0 (Text.repeat_char "0" n ++ s) = string_value 0 s.
Proof. induction n as [|n IH]; [reflexivity | exact IH]. Qed.

Lemma zeros_digits (n : nat) : digit_string (Text.repeat_char "0" n).
Proof. unfold digit_string. induction n; cbn; constructor; (discriminate || assumption). Qed.

Lemma digit_string_append (s t : string) :
  digit_string s -> digit_string t -> digit_string (s ++ t).
Proof. unfold digit_string. rewrite chars_append. intros. now apply Forall_app. Qed.

Lemma string_value_shift (s : string) :
  forall acc,
    digit_string s ->
    string_value acc s
    = (acc * 10 ^ Z.of_nat (String.length s) + string_value 0 s)%Z.
Proof.
  unfold digit_string. induction s as [|c s IH]; intros acc Hs.
  - cbn [string_value String.length]. change (10 ^ Z.of_nat 0)%Z with 1%Z. lia.
  - cbn [list_ascii_of_string] in Hs. inversion Hs as [|? ? Hc Hs']; subst.
    cbn [string_value String.length].
    destruct (Literal.digit_of c) as [d|]; [|congruence].
    rewrite (IH (10 * acc + d)%Z Hs'), (IH (10 * 0 + d)%Z Hs').
    rewrite Nat2Z.inj_succ, Z.pow_succ_r by lia. ring.
Qed.

(** The eight decimals of a field: digits, eight of them, with the value
    of the fraction. *)
Lemma decimals_spec (f : Z) :
  (0 <= f < 100000000)%Z ->
  let F := Text.rjust "0" 8 (Format.decimal f) in
  digit_string F /\ String.length F = 8%nat /\ string_value 0 F = f.
Proof.
  intros Hf F.
  destruct (decimal_nonneg f ltac:(lia)) as (Hne & Hd & Hv).
  pose proof (decimal_length f 8 ltac:(change (10 ^ Z.of_nat 8)%Z with 100000000%Z; lia)
                ltac:(lia)) as Hlen.
  unfold F, Text.rjust. split; [|split].
  - apply digit_string_append; [apply zeros_digits | exact Hd].
  - rewrite length_append, repeat_char_length. lia.
  - now rewrite string_value_zeros.
Qed.

End FieldFacts.

Module LiteralFacts.

Import StringFacts RoundTrip FieldFacts.

Lemma number_digit (c : ascii) (t : string) :
  Literal.digit_of c <> None ->
  Literal.number (String c t)
  = match Literal.digitpart 0 0 (String c t) with
    | Some (v, _, String "." s') =>
        match Literal.digitpart v 0 s' with
        | Some r => Some r
        | None => Some (v, O, s')
        end
    | Some (v, _, rest) => Some (v, O, rest)
    | None => None
    end.
Proof.
  destruct c as [[] [] [] [] [] [] [] []]; vm_compute; intros Hd;
    try (now destruct Hd); reflexivity.
Qed.

Lemma not_special (c : ascii) (t : string) :
  Literal.digit_of c <> None ->
  (String.eqb (Literal.lower (String c t)) "inf"
   || String.eqb (Literal.lower (String c t)) "infinity")%bool = false
  /\ String.eqb (Literal.lower (String c t)) "nan" = false.
Proof.
  destruct c as [[] [] [] [] [] [] [] []]; vm_compute; intros Hd;
    try (now destruct Hd); split; reflexivity.
Qed.

(** The grammar of [float] on an unsigned decimal with a point. *)
Lemma number_fixed (I F : string) :
  I <> EmptyString -> digit_string I -> F <> EmptyString -> digit_string F ->
  Literal.number (I ++ String "." F)
  = Some (string_value (string_value 0 I) F, String.length F, EmptyString).
Proof.
  intros HI HdI HF HdF.
  assert (Hend : ends_digits (String "." F)) by (split; [reflexivity | discriminate]).
  pose proof (digitpart_spec I (String "." F) 0 0 HI HdI Hend) as E1.
  pose proof (digitpart_spec F EmptyString (string_value 0 I) 0 HF HdF Logic.I) as E2.
  rewrite append_nil_r in E2.
  destruct I as [|c I']; [congruence|].
  rewrite append_cons in *. rewrite number_digit by (apply (Forall_inv HdI)).
  rewrite E1, E2. reflexivity.
Qed.

Lemma float_literal_of_fixed (neg : bool) (I F : string) :
  I <> EmptyString -> digit_string I -> F <> EmptyString -> digit_string F ->
  Literal.float_literal_of ((if neg then "-" else EmptyString) ++ I ++ String "." F)
  = Ok (Literal.LitFinite neg (string_value (string_value 0 I) F)
          (0 - Z.of_nat (String.length F))).
Proof.
  intros HI HdI HF HdF.
  assert (Hsolid : solid (I ++ String "." F)).
  { unfold solid. rewrite chars_append. apply Forall_app. split.
    - now apply digit_string_solid.
    - cbn [list_ascii_of_string]. constructor; [reflexivity | now apply digit_string_solid]. }
  assert (Hbody : forall s1,
            s1 = (I ++ String "." F)%string ->
            (let l := Literal.lower s1 in
             if (String.eqb l "inf" || String.eqb l "infinity")%bool
             then Ok (Literal.LitInf neg)
             else if String.eqb l "nan" then Ok Literal.LitNan
             else match Literal.number s1 with
                  | Some (m, nfrac, rest) =>
                      match Literal.exponent rest with
                      | Some (e, EmptyString) =>
                          Ok (Literal.LitFinite neg m (e - Z.of_nat nfrac))
                      | _ => Raise ValueError
                      end
                  | None => Raise ValueError
                  end)
            = Ok (Literal.LitFinite neg (string_value (string_value 0 I) F)
                    (0 - Z.of_nat (String.length F)))).
  { intros s1 ->. cbv zeta. rewrite (number_fixed I F HI HdI HF HdF).
    destruct I as [|c I']; [congruence|]. rewrite append_cons.
    destruct (not_special c (I' ++ String "." F) (Forall_inv HdI)) as [-> ->].
    reflexivity. }
  unfold Literal.float_literal_of. destruct neg.
  - change ("-" ++ I ++ String "." F)%string with (String "-" (I ++ String "." F)).
    rewrite strip_solid by (constructor; [reflexivity | exact Hsolid]).
    cbn [Literal.sign]. now apply Hbody.
  - change (EmptyString ++ I ++ String "." F)%string with (I ++ String "." F)%string.
    rewrite strip_solid by exact Hsolid.
    destruct I as [|c I'] eqn:EI; [congruence|]. rewrite append_cons.
    rewrite sign_digit by (apply (Forall_inv HdI)).
    rewrite <- append_cons. now apply Hbody.
Qed.

(** The literal that [float] finds in a field written with [{:.8f}]: the
    number written, digit for digit. *)
Lemma float_literal_of_fixed8 (neg : bool) (q : Q) :
  Literal.float_literal_of (Format.fixed8 neg q)
  = Ok (Literal.LitFinite neg
          (Format.round_half_even (Qabs q * (100000000 # 1))) (-8)).
Proof.
  unfold Format.fixed8, Format.fixed8_abs.
  set (N := Format.round_half_even (Qabs q * (100000000 # 1))).
  assert (HN : (0 <= N)%Z).
  { apply round_half_even_nonneg. apply Qmult_le_0_compat; [apply Qabs_nonneg | discriminate]. }
  pose proof (Z.div_pos N 100000000 HN ltac:(lia)) as Hip.
  pose proof (Z.mod_pos_bound N 100000000 ltac:(lia)) as Hfp.
  destruct (decimal_nonneg (N / 100000000) Hip) as (HI & HdI & HvI).
  destruct (decimals_spec (N mod 100000000) Hfp) as (HdF & HlF & HvF).
  change ("." ++ Text.rjust "0" 8 (Format.decimal (N mod 100000000)))%string
    with (String "." (Text.rjust "0" 8 (Format.decimal (N mod 100000000)))).
  rewrite float_literal_of_fixed; try assumption.
  - rewrite HvI, string_value_shift, HlF, HvF by assumption.
    change (10 ^ Z.of_nat 8)%Z with 100000000%Z.
    do 2 f_equal. rewrite (Z.div_mod N 100000000) at 3 by lia. lia.
  - intros E. rewrite E in HlF. discriminate.
Qed.

End LiteralFacts.

(** ** Splitting lines into tokens, and texts into lines *)

Module SplitFacts.

Import StringFacts RoundTrip.

Lemma solid_append (s t : string) : solid s -> solid t -> solid (s ++ t).
Proof. unfold solid. rewrite chars_append. intros. now apply Forall_app. Qed.

Lemma blank_append (s t : string) : blank s -> blank t -> blank (s ++ t).
Proof. unfold blank. rewrite chars_append. intros. now apply Forall_app. Qed.

Lemma split_acc_solid (t : string) :
  forall cur rest,
    solid t -> Text.split_acc cur (t ++ rest) = Text.split_acc (cur ++ t) rest.
Proof.
  unfold solid. induction t as [|c t IH]; intros cur rest Ht.
  - now rewrite append_nil_r.
  - cbn [list_ascii_of_string] in Ht. inversion Ht as [|? ? Hc Ht']; subst.
    rewrite append_cons. cbn [Text.split_acc]. rewrite Hc, (IH _ _ Ht').
    now rewrite append_assoc.
Qed.

Lemma split_acc_lead (b : string) :
  forall rest,
    blank b -> Text.split_acc EmptyString (b ++ rest) = Text.split_acc EmptyString rest.
Proof.
  unfold blank. induction b as [|c b IH]; intros rest Hb; [reflexivity|].
  cbn [list_ascii_of_string] in Hb. inversion Hb as [|? ? Hc Hb']; subst.
  rewrite append_cons. cbn [Text.split_acc]. rewrite Hc. now apply IH.
Qed.

Lemma split_acc_blank (cur b rest : string) :
  cur <> EmptyString -> blank b -> b <> EmptyString ->
  Text.split_acc cur (b ++ rest) = cur :: Text.split_acc EmptyString rest.
Proof.
  intros Hcur Hb Hne. destruct b as [|c b]; [congruence|].
  unfold blank in Hb. cbn [list_ascii_of_string] in Hb.
  inversion Hb as [|? ? Hc Hb']; subst.
  rewrite append_cons. cbn [Text.split_acc]. rewrite Hc.
  destruct cur; [congruence|]. now rewrite split_acc_lead.
Qed.

(** A token followed by white space is the first token of the line. *)
Lemma split_token (t b rest : string) :
  token t -> blank b -> b <> EmptyString ->
  Text.split (t ++ b ++ rest) = t :: Text.split rest.
Proof.
  intros [Ht Hne] Hb Hbne. unfold Text.split.
  rewrite split_acc_solid by assumption.
  change (EmptyString ++ t)%string with t. now apply split_acc_blank.
Qed.

Lemma split_last (t b : string) :
  token t -> blank b -> Text.split (t ++ b) = [t].
Proof.
  intros [Ht Hne] Hb. unfold Text.split.
  rewrite split_acc_solid by assumption.
  change (EmptyString ++ t)%string with t.
  destruct b as [|c b].
  - cbn [Text.split_acc]. now destruct t.
  - rewrite <- (append_nil_r (String c b)).
    now rewrite split_acc_blank by (assumption || discriminate).
Qed.

Lemma split_lead (b rest : string) :
  blank b -> Text.split (b ++ rest) = Text.split rest.
Proof. intros Hb. now apply split_acc_lead. Qed.

(** Stripping a line does not change its tokens. *)
Lemma split_acc_rstrip (s : string) :
  forall cur, Text.split_acc cur (Text.rstrip s) = Text.split_acc cur s.
Proof.
  induction s as [|c s IH]; intros cur; [reflexivity|].
  cbn [Text.rstrip]. destruct (Text.rstrip s) as [|a t] eqn:E.
  - destruct (Text.is_space c) eqn:Ec.
    + cbn [Text.split_acc]. rewrite Ec.
      rewrite <- (IH EmptyString). cbn [Text.split_acc]. now destruct cur.
    + cbn [Text.split_acc]. rewrite Ec. now rewrite <- IH.
  - cbn [Text.split_acc]. destruct (Text.is_space c).
    + rewrite <- (IH EmptyString). reflexivity.
    + now rewrite <- IH.
Qed.

Lemma split_strip (s : string) : Text.split (Text.strip s) = Text.split s.
Proof.
  unfold Text.strip, Text.split. rewrite split_acc_rstrip.
  destruct (ArgFile.lstrip_split s) as (ws & Hws & Hs & _).
  rewrite Hs at 2. now rewrite split_acc_lead.
Qed.

(** The tokens of a line are tokens. *)
Lemma split_acc_tokens (s : string) :
  forall cur, solid cur -> Forall token (Text.split_acc cur s).
Proof.
  induction s as [|c s IH]; intros cur Hcur; cbn [Text.split_acc].
  - destruct cur; constructor; [|constructor]. split; [assumption | discriminate].
  - destruct (Text.is_space c) eqn:Ec.
    + destruct cur.
      * apply IH. constructor.
      * constructor; [split; [assumption | discriminate]|]. apply IH. constructor.
    + apply IH. apply solid_append; [assumption|]. repeat constructor. assumption.
Qed.

Lemma split_tokens (s : string) : Forall token (Text.split s).
Proof. apply split_acc_tokens. constructor. Qed.

Lemma solid_one_line (s : string) : solid s -> one_line s.
Proof.
  unfold solid, one_line. intros Hs. eapply Forall_impl; [exact Hs|].
  intros c. destruct c as [[] [] [] [] [] [] [] []]; vm_compute; intros Hc;
    (discriminate || (split; reflexivity)).
Qed.

Lemma spaces_one_line (n : nat) : one_line (Text.repeat_char " " n).
Proof. unfold one_line. induction n; cbn; constructor; (now split) || assumption. Qed.

Lemma one_line_append (s t : string) : one_line s -> one_line t -> one_line (s ++ t).
Proof. unfold one_line. rewrite chars_append. intros. now apply Forall_app. Qed.

Lemma readlines_acc_line (s : string) :
  forall cur rest,
    one_line s ->
    Text.readlines_acc cur (s ++ nl ++ rest)
    = (cur ++ s)%string :: Text.readlines_acc EmptyString rest.
Proof.
  unfold one_line. induction s as [|c s IH]; intros cur rest Hs.
  - rewrite append_nil_r. reflexivity.
  - cbn [list_ascii_of_string] in Hs. inversion Hs as [|? ? [Hn Hr] Hs']; subst.
    rewrite append_cons. cbn [Text.readlines_acc]. rewrite Hn, Hr, (IH _ _ Hs').
    now rewrite append_assoc.
Qed.

Lemma concat_cons (x : string) (xs : list string) :
  String.concat EmptyString (x :: xs) = (x ++ String.concat EmptyString xs)%string.
Proof. destruct xs; cbn [String.concat]; [now rewrite append_nil_r | reflexivity]. Qed.

(** A text made of lines, each closed by a newline, is read as these
    lines. *)
Lemma readlines_records (bodies : list string) :
  Forall one_line bodies ->
  Text.readlines (String.concat EmptyString (map (fun b => b ++ nl)%string bodies))
  = bodies.
Proof.
  unfold Text.readlines. induction bodies as [|b bodies IH]; intros Hb; [reflexivity|].
  inversion Hb as [|? ? Hb1 Hb2]; subst.
  cbn [map]. rewrite concat_cons, append_assoc, readlines_acc_line by assumption.
  now rewrite IH.
Qed.

End SplitFacts.

(** ** Reading back what the script writes *)

Module ReadBack.

Import StringFacts RoundTrip FieldFacts LiteralFacts SplitFacts.

Abbreviation binary64 := PrimFloat.float.

(** What a coordinate line of the output gives to the parser: the symbol
    and the three fields. *)
Abbreviation written a line :=
  (exists x y z : binary64,
     Text.split line = [a; Binary64.format8 x; Binary64.format8 y; Binary64.format8 z]).

Lemma fixed8_token (neg : bool) (q : Q) : token (Format.fixed8 neg q).
Proof.
  unfold Format.fixed8, Format.fixed8_abs.
  set (N := Format.round_half_even _). split.
  - apply solid_append; [destruct neg; repeat constructor|].
    apply solid_append; [apply decimal_solid|].
    apply solid_append; [repeat constructor|].
    unfold Text.rjust. apply solid_append; [|apply decimal_solid].
    apply digit_string_solid, zeros_digits.
  - intros E. apply (f_equal String.length) in E.
    rewrite !length_append in E. cbn [String.length] in E. lia.
Qed.

Lemma format8_token (x : binary64) : token (Binary64.format8 x).
Proof.
  unfold Binary64.format8. destruct (Prim2SF x) as [s|s| |s m e].
  - apply fixed8_token.
  - destruct s; (split; [repeat constructor | discriminate]).
  - split; [repeat constructor | discriminate].
  - apply fixed8_token.
Qed.

Lemma literal_value_total (l : Literal.float_literal) :
  exists y, Binary64.literal_value l = Ok y.
Proof.
  destruct l as [neg m e|neg|]; [destruct m|..]; eexists; reflexivity.
Qed.

(** [float] accepts every field that [{:.8f}] writes. *)
Lemma float_format8 (x : binary64) :
  exists y : binary64, float (Binary64.format8 x) = Ok y.
Proof.
  unfold float, Binary64.format8. destruct (Prim2SF x) as [s|s| |s m e].
  - rewrite float_literal_of_fixed8. apply literal_value_total.
  - destruct s; eexists; vm_compute; reflexivity.
  - eexists; vm_compute; reflexivity.
  - rewrite float_literal_of_fixed8. apply literal_value_total.
Qed.

Lemma blank_sep (p q : string) :
  blank p -> blank q -> blank (p ++ " " ++ q) /\ (p ++ " " ++ q)%string <> EmptyString.
Proof.
  intros Hp Hq. split.
  - apply blank_append; [assumption|]. apply blank_append; [repeat constructor | assumption].
  - intros E. apply (f_equal String.length) in E.
    rewrite !length_append in E. cbn [String.length] in E. lia.
Qed.

Lemma split_fields (a fx fy fz p0 p1 p2 p3 e : string) :
  token a -> token fx -> token fy -> token fz ->
  blank p0 -> blank p1 -> blank p2 -> blank p3 -> blank e ->
  Text.split (a ++ p0 ++ " " ++ p1 ++ fx ++ " " ++ p2 ++ fy ++ " " ++ p3 ++ fz ++ e)
  = [a; fx; fy; fz].
Proof.
  intros Ha Hx Hy Hz H0 H1 H2 H3 He.
  destruct (blank_sep p0 p1 H0 H1) as [B1 N1].
  destruct (blank_sep EmptyString p2 ltac:(constructor) H2) as [B2 N2].
  destruct (blank_sep EmptyString p3 ltac:(constructor) H3) as [B3 N3].
  change (EmptyString ++ " " ++ p2)%string with (" " ++ p2)%string in *.
  change (EmptyString ++ " " ++ p3)%string with (" " ++ p3)%string in *.
  transitivity (Text.split (a ++ (p0 ++ " " ++ p1) ++ fx ++ (" " ++ p2) ++ fy
                              ++ (" " ++ p3) ++ fz ++ e)).
  { f_equal. now rewrite !append_assoc. }
  rewrite (split_token a _ _ Ha B1 N1), (split_token fx _ _ Hx B2 N2),
    (split_token fy _ _ Hy B3 N3), (split_last fz e Hz He).
  reflexivity.
Qed.

(** Without a symbol the line has three tokens only. *)
Lemma split_fields_lead (fx fy fz p0 p1 p2 p3 e : string) :
  token fx -> token fy -> token fz ->
  blank p0 -> blank p1 -> blank p2 -> blank p3 -> blank e ->
  Text.split (p0 ++ " " ++ p1 ++ fx ++ " " ++ p2 ++ fy ++ " " ++ p3 ++ fz ++ e)
  = [fx; fy; fz].
Proof.
  intros Hx Hy Hz H0 H1 H2 H3 He.
  destruct (blank_sep p0 p1 H0 H1) as [B1 N1].
  destruct (blank_sep EmptyString p2 ltac:(constructor) H2) as [B2 N2].
  destruct (blank_sep EmptyString p3 ltac:(constructor) H3) as [B3 N3].
  change (EmptyString ++ " " ++ p2)%string with (" " ++ p2)%string in *.
  change (EmptyString ++ " " ++ p3)%string with (" " ++ p3)%string in *.
  transitivity (Text.split ((p0 ++ " " ++ p1) ++ fx ++ (" " ++ p2) ++ fy
                              ++ (" " ++ p3) ++ fz ++ e)).
  { f_equal. now rewrite !append_assoc. }
  rewrite (split_lead _ _ B1), (split_token fx _ _ Hx B2 N2),
    (split_token fy _ _ Hy B3 N3), (split_last fz e Hz He).
  reflexivity.
Qed.

Lemma blank_nl : blank nl.
Proof. repeat constructor. Qed.

(** A coordinate line of the output is one line of text, closed by a
    newline, and its tokens are the symbol and the three fields. *)
Lemma atom_line_body (a : string) (x y z : binary64) :
  token a ->
  exists b,
    atom_line a x y z = (b ++ nl)%string /\ one_line b
    /\ Text.split b = [a; Binary64.format8 x; Binary64.format8 y; Binary64.format8 z].
Proof.
  intros Ha. unfold atom_line, Format.str3, Text.ljust, fmt13_8, Text.rjust.
  cbn [fmt8 Binary64.number].
  pose proof (format8_token x) as Hx. pose proof (format8_token y) as Hy.
  pose proof (format8_token z) as Hz.
  set (fx := Binary64.format8 x) in *. set (fy := Binary64.format8 y) in *.
  set (fz := Binary64.format8 z) in *.
  set (p0 := Text.repeat_char " " (3 - String.length a)).
  set (p1 := Text.repeat_char " " (13 - String.length fx)).
  set (p2 := Text.repeat_char " " (13 - String.length fy)).
  set (p3 := Text.repeat_char " " (13 - String.length fz)).
  exists (a ++ p0 ++ " " ++ p1 ++ fx ++ " " ++ p2 ++ fy ++ " " ++ p3 ++ fz)%string.
  split; [now rewrite !append_assoc|]. split.
  - destruct Ha as [Ha _], Hx as [Hx _], Hy as [Hy _], Hz as [Hz _].
    assert (Hsp : one_line " ") by (repeat constructor).
    repeat (apply one_line_append;
            [first [now apply solid_one_line | apply spaces_one_line | exact Hsp]|]).
    now apply solid_one_line.
  - rewrite <- (append_nil_r (a ++ _)). rewrite !append_assoc.
    apply split_fields; try assumption; try apply blank_spaces. constructor.
Qed.

Lemma atom_lines_bodies (l : list (string * (binary64 * binary64 * binary64))) :
  Forall (fun p => token (fst p)) l ->
  exists bs,
    map (fun '(atom, (x, y, z)) => atom_line atom x y z) l
    = map (fun b => b ++ nl)%string bs
    /\ Forall one_line bs
    /\ Forall2 (fun a line => written a line) (map fst l) (map Text.strip bs).
Proof.
  induction l as [|[a [[x y] z]] l IH]; intros Hl.
  - exists []. repeat split; constructor.
  - inversion Hl as [|? ? Ha Hl']; subst.
    destruct (IH Hl') as (bs & E & H1 & H2).
    destruct (atom_line_body a x y z Ha) as (b & Eb & Hb & Sb).
    exists (b :: bs). cbn [map fst]. rewrite E, Eb. split; [reflexivity|].
    split; [now constructor|]. constructor; [|assumption].
    exists x, y, z. now rewrite split_strip.
Qed.

Lemma read_coords_written (natoms : Z) (atoms lines : list string) :
  Forall2 (fun a line => written a line) atoms lines ->
  forall i,
    (Z.of_nat i + Z.of_nat (length lines) <= natoms)%Z ->
    exists rows : list (list binary64),
      read_coords natoms i lines = Ok (atoms, rows)
      /\ Forall (fun r => length r = 3%nat) rows.
Proof.
  induction 1 as [|a line atoms lines (x & y & z & Hs) _ IH]; intros i Hi.
  - exists []. split; [reflexivity | constructor].
  - cbn [length] in Hi. destruct (IH (S i) ltac:(lia)) as (rows & E & Hrows).
    destruct (float_format8 x) as (x' & Ex), (float_format8 y) as (y' & Ey),
      (float_format8 z) as (z' & Ez).
    exists ([x'; y'; z'] :: rows). split; [|now constructor].
    cbn [read_coords]. destruct (Z.gtb_spec (Z.of_nat i + 1) natoms) as [Hgt|_]; [lia|].
    rewrite Hs. cbn [take mapM]. rewrite Ex, Ey, Ez. cbn [bind]. rewrite E. reflexivity.
Qed.

Lemma combine_fst {A B} (l : list A) :
  forall l' : list B, length l = length l' -> map fst (combine l l') = l.
Proof.
  induction l as [|a l IH]; intros [|b l'] E; try discriminate; [reflexivity|].
  cbn [combine map fst]. f_equal. apply IH. now injection E.
Qed.

End ReadBack.

(** A structure file written with symbols that are tokens is parsed as
    the structure of one atom more than declared, with the symbol of the
    adsorbate first, and every row read back has three coordinates. *)
Lemma xyz_text_reads_back (args : cmd_line_args PrimFloat.float) (natoms : Z)
    (atoms : list string)
    (shftcoords : list (PrimFloat.float * PrimFloat.float * PrimFloat.float))
    (znew : PrimFloat.float) :
  token (atom_symb args) ->
  Forall token atoms ->
  length atoms = length shftcoords ->
  (Z.of_nat (length atoms) <= natoms)%Z ->
  exists rows : list (list PrimFloat.float),
    read_atoms (map Text.strip
                  (Text.readlines (xyz_text args natoms atoms shftcoords znew)))
    = Ok ((natoms + 1)%Z, atom_symb args :: atoms, rows)
    /\ Forall (fun r => length r = 3%nat) rows.
Proof.
  intros Hsym Hatoms Hlen Hn.
  set (l := (atom_symb args, (xcoord args, ycoord args, znew)) :: combine atoms shftcoords).
  assert (Hl : Forall (fun p => token (fst p)) l).
  { constructor; [exact Hsym|]. apply Forall_map.
    now rewrite ReadBack.combine_fst. }
  destruct (ReadBack.atom_lines_bodies l Hl) as (bs & E & Hone & Hw).
  assert (Hlenbs : length bs = S (length atoms)).
  { apply (f_equal (@length string)) in E. rewrite !length_map in E.
    rewrite <- E. unfold l. cbn [length]. rewrite length_combine. lia. }
  unfold l in Hw. cbn [map fst] in Hw. rewrite ReadBack.combine_fst in Hw by assumption.
  destruct (ReadBack.read_coords_written (natoms + 1) _ _ Hw 0%nat) as (rows & Er & Hrows).
  { rewrite length_map, Hlenbs. lia. }
  exists rows. split; [|exact Hrows].
  unfold xyz_text, xyz_records.
  change ([(Format.int_right4 (natoms + 1) ++ nl)%string;
           ("Atom-surface distance: " ++ fmt8 znew ++ nl)%string;
           atom_line (atom_symb args) (xcoord args) (ycoord args) znew]
          ++ map (fun '(atom, (x, y, z)) => atom_line atom x y z) (combine atoms shftcoords))
    with ((Format.int_right4 (natoms + 1) ++ nl)%string
          :: ("Atom-surface distance: " ++ fmt8 znew ++ nl)%string
          :: map (fun '(atom, (x, y, z)) => atom_line atom x y z) l).
  rewrite E, <- (StringFacts.append_assoc "Atom-surface distance: " (fmt8 znew) nl).
  change ((Format.int_right4 (natoms + 1) ++ nl)%string
          :: (("Atom-surface distance: " ++ fmt8 znew) ++ nl)%string
          :: map (fun b => b ++ nl)%string bs)
    with (map (fun b => b ++ nl)%string
            (Format.int_right4 (natoms + 1)
             :: ("Atom-surface distance: " ++ fmt8 znew)%string :: bs)).
  rewrite SplitFacts.readlines_records.
  - cbn [map read_atoms].
    unfold Format.int_right4, Text.rjust.
    rewrite RoundTrip.strip_padded by apply RoundTrip.decimal_solid.
    rewrite (proj2 (before_no_sep "#" _ EmptyString (RoundTrip.decimal_no_hash _))).
    rewrite RoundTrip.strip_solid by apply RoundTrip.decimal_solid.
    rewrite RoundTrip.int_decimal. cbn [bind]. rewrite Er. reflexivity.
  - constructor; [|constructor; [|exact Hone]].
    + unfold Format.int_right4, Text.rjust.
      apply SplitFacts.one_line_append; [apply SplitFacts.spaces_one_line|].
      apply SplitFacts.solid_one_line, RoundTrip.decimal_solid.
    + apply SplitFacts.one_line_append; [repeat constructor|].
      apply SplitFacts.solid_one_line. apply ReadBack.format8_token.
Qed.

Lemma read_coords_tokens {R} `{Number R} (natoms : Z) (lines : list string)
    (i : nat) atoms (atomcoords : list (list R)) :
  read_coords natoms i lines = Ok (atoms, atomcoords) -> Forall token atoms.
Proof.
  intros E. apply Forall_lookup. intros k atom Hk.
  destruct (read_coords_symbols natoms lines i atoms atomcoords E k atom Hk)
    as (line & _ & Hsym).
  unfold symbol_of in Hsym. pose proof (SplitFacts.split_tokens line) as Ht.
  destruct (Text.split line) as [|a ts]; [discriminate|].
  injection Hsym as <-. now inversion Ht.
Qed.

(** X15: the script reads what it writes.  After a run that ends normally
    with a symbol that is a token, every output file is parsed by the
    script as a structure of one atom more than the input declared: the
    symbol of the adsorbate, then the symbols of the input in their order,
    and three coordinates for each. *)
Theorem written_files_are_inputs (args : cmd_line_args PrimFloat.float)
    (w w' : OS.world) (input : string) (natoms : Z) (atoms : list string)
    (atomcoords : list (list PrimFloat.float)) (zvalues : list PrimFloat.float)
    (k : nat) :
  token (atom_symb args) ->
  OS.files w !! inpxyz args = Some (OS.File input) ->
  read_atoms (map Text.strip (Text.readlines input)) = Ok (natoms, atoms, atomcoords) ->
  arange (d_min args) (add (d_max args) (d_step args)) (d_step args) = Ok zvalues ->
  (k < length zvalues)%nat ->
  main args w = (w', Ok tt) ->
  exists output rows,
    OS.files w' !! newfile_name (outname args) k = Some (OS.File output)
    /\ read_atoms (map Text.strip (Text.readlines output))
       = Ok ((natoms + 1)%Z, atom_symb args :: atoms, rows)
    /\ Forall (fun r => length r = 3%nat) rows.
Proof.
  intros Hsym Hin Hread Hz Hk Hrun.
  destruct (main_ok args w w' Hrun)
    as (zvalues0 & text & natoms0 & atoms0 & atomcoords0 & zs & shftcoords
        & Ez & Et & Er & Ec & Es & Ew).
  rewrite Hz in Ez. injection Ez as <-.
  rewrite Hin in Et. injection Et as <-.
  rewrite Hread in Er. injection Er as <- <- <-.
  destruct (lookup_lt_is_Some_2 zvalues k Hk) as [znew Hznew].
  destruct (write_structures_ok args natoms atoms shftcoords zvalues 0 w w' Ew)
    as [Hfiles _].
  specialize (Hfiles k znew Hznew). cbn [Nat.add] in Hfiles.
  apply read_atoms_inv in Hread as [_ Hcoords].
  pose proof (read_coords_tokens _ _ _ _ _ Hcoords) as Htok.
  apply read_coords_length in Hcoords as [Hlen Hlen'].
  pose proof (mapM_length _ _ _ Es) as Hlen''.
  assert (Hne : (0 < length atomcoords)%nat).
  { unfold last_column in Ec. destruct atomcoords; [discriminate | cbn; lia]. }
  destruct (xyz_text_reads_back args natoms atoms shftcoords znew Hsym Htok)
    as (rows & Hrows & Hthree); [lia | lia |].
  now exists (xyz_text args natoms atoms shftcoords znew), rows.
Qed.

Lemma written_files_are_inputs_witness :
  exists output rows,
    OS.files (fst (main Scenario.arguments Scenario.world)) !! "out_0001.xyz"
    = Some (OS.File output)
    /\ read_atoms (R := PrimFloat.float) (map Text.strip (Text.readlines output))
       = Ok (4%Z, ["H"; "C"; "C"; "Si"], rows)
    /\ Forall (fun r => length r = 3%nat) rows.
Proof.
  apply (written_files_are_inputs Scenario.arguments Scenario.world
           (fst (main Scenario.arguments Scenario.world)) Scenario.surface 3
           ["C"; "C"; "Si"]
           [[0%float; 0%float; 1%float]; [1.5%float; 0%float; 2%float];
            [0%float; 1.5%float; 3%float]]
           [2%float; 3%float; 4%float] 1).
  - split; [repeat constructor | discriminate].
  - reflexivity.
  - vm_compute; reflexivity.
  - vm_compute; reflexivity.
  - cbn; lia.
  - vm_compute; reflexivity.
Defined.

(** X16: the symbol of the adsorbate is written as it is given.  With an
    empty symbol the line of the adsorbate has three tokens only, and the
    parser of the script takes the field of [x] for the symbol. *)
Theorem empty_symbol_shifts_the_fields (x y z : PrimFloat.float) :
  Text.split (atom_line EmptyString x y z) = [fmt8 x; fmt8 y; fmt8 z]
  /\ symbol_of (atom_line EmptyString x y z) = Some (fmt8 x).
Proof.
  assert (E : Text.split (atom_line EmptyString x y z) = [fmt8 x; fmt8 y; fmt8 z]).
  { unfold atom_line, Format.str3, Text.ljust, fmt13_8, Text.rjust.
    cbn [fmt8 Binary64.number].
    pose proof (ReadBack.format8_token x) as Hx.
    pose proof (ReadBack.format8_token y) as Hy.
    pose proof (ReadBack.format8_token z) as Hz.
    set (fx := Binary64.format8 x) in *. set (fy := Binary64.format8 y) in *.
    set (fz := Binary64.format8 z) in *.
    change (EmptyString ++ Text.repeat_char " " (3 - String.length EmptyString))%string
      with (Text.repeat_char " " 3).
    rewrite !StringFacts.append_assoc.
    apply ReadBack.split_fields_lead; try assumption; try apply RoundTrip.blank_spaces.
    apply ReadBack.blank_nl. }
  split; [exact E|]. unfold symbol_of. now rewrite E.
Qed.

Module DecimalFacts8.

Import StringFacts RoundTrip.

Lemma float_literal_of_padded (n : nat) (s : string) :
  solid s ->
  Literal.float_literal_of (Text.repeat_char " " n ++ s) = Literal.float_literal_of s.
Proof.
  intros Hs. unfold Literal.float_literal_of.
  now rewrite strip_padded, strip_solid.
Qed.

Lemma Qabs_nonneg_eq (q : Q) : (0 <= Qnum q)%Z -> Qabs q = q.
Proof. destruct q as [n d]. cbn. intros Hn. now rewrite Z.abs_eq. Qed.

Lemma Qpower_positive_num (q : Q) (p : positive) :
  (0 < Qnum q)%Z -> (0 < Qnum (Qpower_positive q p))%Z.
Proof.
  intros Hq. unfold Qpower_positive.
  induction p as [p IH|p IH|]; cbn [pow_pos Qmult Qnum]; try assumption; nia.
Qed.

Lemma Qpower_num (q : Q) (e : Z) : (0 < Qnum q)%Z -> (0 <= Qnum (Qpower q e))%Z.
Proof.
  intros Hq. destruct e as [|p|p]; cbn [Qpower].
  - discriminate.
  - pose proof (Qpower_positive_num q p Hq). lia.
  - pose proof (Qpower_positive_num q p Hq) as Hp.
    destruct (Qpower_positive q p) as [n d]. cbn [Qnum] in Hp.
    destruct n as [|n|n]; try lia. cbn. lia.
Qed.

Lemma value_nonneg (m : positive) (e : Z) :
  Qabs (Binary64.value m e) = Binary64.value m e.
Proof.
  apply Qabs_nonneg_eq. unfold Binary64.value.
  pose proof (Qpower_num (2 # 1) e ltac:(reflexivity)) as H.
  cbn [Qnum Qmult inject_Z]. nia.
Qed.

End DecimalFacts8.

(** X17: a field of the output denotes the multiple of 10^-8 nearest to
    the value written, ties to even, and [float] reads exactly that
    decimal from it, with the sign of the value. *)
Theorem written_field_is_the_rounded_decimal (x : PrimFloat.float)
    (s : bool) (m : positive) (e : Z) :
  Prim2SF x = S754_finite s m e ->
  Literal.float_literal_of (fmt13_8 x)
  = Ok (Literal.LitFinite s
          (Format.round_half_even (Binary64.value m e * (100000000 # 1))) (-8)).
Proof.
  intros Hx. unfold fmt13_8, Text.rjust. cbn [fmt8 Binary64.number].
  rewrite DecimalFacts8.float_literal_of_padded by apply ReadBack.format8_token.
  unfold Binary64.format8. rewrite Hx.
  now rewrite LiteralFacts.float_literal_of_fixed8, DecimalFacts8.value_nonneg.
Qed.

Lemma written_field_is_the_rounded_decimal_witness :
  Literal.float_literal_of (fmt13_8 (-2.5)%float)
  = Ok (Literal.LitFinite true 250000000 (-8)).
Proof.
  exact (written_field_is_the_rounded_decimal (-2.5)%float true 5629499534213120 (-51)
           ltac:(vm_compute; reflexivity)).
Defined.

(** X18: in exact arithmetic, a number that is written with [{:13.8f}]
    and read with [float] comes back within half a unit of the eighth
    decimal. *)
Theorem field_round_trip_exact (q : Q) :
  exists r : Q,
    float (fmt13_8 q) = Ok r /\ (Qabs (r - q) <= 1 # 200000000)%Q.
Proof.
  unfold float, fmt13_8, Text.rjust. cbn [fmt8 Exact.number].
  rewrite DecimalFacts8.float_literal_of_padded by apply ReadBack.fixed8_token.
  rewrite LiteralFacts.float_literal_of_fixed8. cbn [bind of_literal Exact.number].
  unfold Exact.literal_value.
  change (Qpower (10 # 1) (-8)) with (1 # 100000000)%Q.
  pose proof (FieldFacts.round_half_even_error (Qabs q * (100000000 # 1))) as Herr.
  set (N := inject_Z (Format.round_half_even (Qabs q * (100000000 # 1)))) in *.
  apply Qabs_Qle_condition in Herr as [Hlo Hhi].
  eexists. split; [reflexivity|].
  apply Qabs_Qle_condition.
  destruct (Z.ltb_spec (Qnum q) 0) as [Hneg|Hpos].
  - assert (Hq : (q <= 0)%Q) by (unfold Qle; cbn; lia).
    pose proof (Qabs_neg q Hq) as Ha. set (a := Qabs q) in *. split; lra.
  - assert (Hq : (0 <= q)%Q) by (unfold Qle; cbn; lia).
    pose proof (Qabs_pos q Hq) as Ha. set (a := Qabs q) in *. split; lra.
Qed.
